(** * FairHire: anonymous applicant API

    A shallow embedding of the Express/Mongoose server of the repository
    (the routes under [/api/applicants] and [/api/stats], the validators
    and the identifier generator) and, of the client form, of the name
    rule and of the payload it posts, with the properties of the
    anonymised and contact projections, of submission, of pagination, of
    the status update and of the statistics.

    Conventions of the model.
    - A JavaScript string is a [string]; each [ascii] stands for one code
      unit below 256.  White space is the part of the ECMAScript set that
      lies in that range (TAB, LF, VT, FF, CR, SP, NBSP).
    - A JavaScript number is a [JsNum]: NaN, the two infinities, or a
      finite value kept as a rational.  What [parseInt] returns is a
      [JsInt]: NaN, an infinity, or the integer that the nearest double
      is.
    - The collection is the list of its documents in insertion order.
    - [submit], [handle] and [run] serve one request at a time.  The two
      store calls of a submission, between which the handler awaits, are
      also given apart ([submit_check], [submit_write]), to follow two
      submissions that overlap.
    - A rejected promise or a thrown exception is a value of [Exn] that
      the handler's [catch] turns into a response.
    - Request fields have the types the client form gives them: text
      fields are strings (or absent), [experience] is a number or a string,
      [skills] a string or an array of strings. *)

From Stdlib Require Import List String Ascii Bool Arith ZArith NArith QArith Lia.
From Stdlib Require Import Permutation Sorted.
Import ListNotations.
Local Open Scope string_scope.
Local Open Scope Z_scope.

Set Implicit Arguments.

(* ================================================================== *)
(** ** Characters and strings *)

Module Js.

Definition code (c : ascii) : nat := nat_of_ascii c.

Definition between (lo hi : nat) (c : ascii) : bool :=
  (Nat.leb lo (code c) && Nat.leb (code c) hi)%bool.

(** [\s] of a regular expression and the set stripped by [trim()]. *)
Definition is_space (c : ascii) : bool :=
  (between 9 13 c || Nat.eqb (code c) 32 || Nat.eqb (code c) 160)%bool.

Definition is_digit (c : ascii) : bool := between 48 57 c.

(** [String.prototype.toLowerCase], one code unit at a time. *)
Definition lower_char (c : ascii) : ascii :=
  if (between 65 90 c || between 192 214 c || between 216 222 c)%bool
  then ascii_of_nat (code c + 32) else c.

(** [String.prototype.toUpperCase] on the alphabet of a base-36 numeral. *)
Definition upper_char (c : ascii) : ascii :=
  if between 97 122 c then ascii_of_nat (code c - 32) else c.

Fixpoint smap (f : ascii -> ascii) (s : string) : string :=
  match s with
  | EmptyString => EmptyString
  | String c r => String (f c) (smap f r)
  end.

Definition toLowerCase : string -> string := smap lower_char.
Definition toUpperCase : string -> string := smap upper_char.

Fixpoint trimStart (s : string) : string :=
  match s with
  | EmptyString => EmptyString
  | String c r => if is_space c then trimStart r else s
  end.

Fixpoint trimEnd (s : string) : string :=
  match s with
  | EmptyString => EmptyString
  | String c r =>
      match trimEnd r with
      | EmptyString => if is_space c then EmptyString else String c EmptyString
      | r' => String c r'
      end
  end.

Definition trim (s : string) : string := trimStart (trimEnd s).

(** [s.replace(/[...]/g, '')] for a character class. *)
Fixpoint remove_chars (p : ascii -> bool) (s : string) : string :=
  match s with
  | EmptyString => EmptyString
  | String c r => if p c then remove_chars p r else String c (remove_chars p r)
  end.

(** [s.split(',')]: never empty; the empty string gives one empty piece. *)
Fixpoint split_on (sep : ascii) (s : string) : list string :=
  match s with
  | EmptyString => [EmptyString]
  | String c r =>
      if Ascii.eqb c sep then EmptyString :: split_on sep r
      else match split_on sep r with
           | [] => [String c EmptyString]
           | p :: ps => String c p :: ps
           end
  end.

(** [s.substr(start, len)]. *)
Definition substr (start len : nat) (s : string) : string :=
  String.substring start len s.

(** [!s] for a string. *)
Definition falsy_string (s : string) : bool :=
  match s with EmptyString => true | _ => false end.

(** [!v] for a value that is a string or [undefined]. *)
Definition falsy (v : option string) : bool :=
  match v with None => true | Some s => falsy_string s end.

End Js.

(* ================================================================== *)
(** ** Regular expressions of the two validators

    The literals [emailRegex] and [phoneRegex] are anchored at both ends,
    so [test] is a match of the whole string.  Matching is by
    derivatives. *)

Module Regex.

Inductive re : Type :=
| Void : re
| Eps : re
| Class : (ascii -> bool) -> re
| Cat : re -> re -> re
| Alt : re -> re -> re
| Star : re -> re.

Definition Plus (r : re) : re := Cat r (Star r).
Definition Opt (r : re) : re := Alt Eps r.

(** [r{0,n}] *)
Fixpoint UpTo (n : nat) (r : re) : re :=
  match n with
  | O => Eps
  | S k => Alt Eps (Cat r (UpTo k r))
  end.

Fixpoint nullable (r : re) : bool :=
  match r with
  | Void => false
  | Eps => true
  | Class _ => false
  | Cat a b => nullable a && nullable b
  | Alt a b => nullable a || nullable b
  | Star _ => true
  end.

Fixpoint deriv (c : ascii) (r : re) : re :=
  match r with
  | Void => Void
  | Eps => Void
  | Class p => if p c then Eps else Void
  | Cat a b =>
      if nullable a then Alt (Cat (deriv c a) b) (deriv c b)
      else Cat (deriv c a) b
  | Alt a b => Alt (deriv c a) (deriv c b)
  | Star a => Cat (deriv c a) (Star a)
  end.

(** Dead branches are pruned so that the derivative stays small. *)
Fixpoint simp (r : re) : re :=
  match r with
  | Cat a b =>
      match simp a, simp b with
      | Void, _ => Void
      | _, Void => Void
      | Eps, b' => b'
      | a', b' => Cat a' b'
      end
  | Alt a b =>
      match simp a, simp b with
      | Void, b' => b'
      | a', Void => a'
      | a', b' => Alt a' b'
      end
  | _ => r
  end.

Fixpoint test (r : re) (s : string) : bool :=
  match s with
  | EmptyString => nullable r
  | String c k => test (simp (deriv c r)) k
  end.

Definition char (c : ascii) : re := Class (Ascii.eqb c).

End Regex.

(* ================================================================== *)
(** ** Numbers *)

Inductive JsNum : Type :=
| NaN : JsNum
| NegInf : JsNum
| Fin : Q -> JsNum
| PosInf : JsNum.

Definition Qlt_bool (a b : Q) : bool := negb (Qle_bool b a).

(** [a < b] on numbers: false as soon as one side is NaN. *)
Definition num_lt (a b : JsNum) : bool :=
  match a, b with
  | NaN, _ | _, NaN => false
  | NegInf, NegInf => false
  | NegInf, _ => true
  | _, NegInf => false
  | PosInf, _ => false
  | Fin _, PosInf => true
  | Fin x, Fin y => Qlt_bool x y
  end.

Definition num_gt (a b : JsNum) : bool := num_lt b a.

(** [a <= b] as the store's [$lte]/[$gte] compare two numbers. *)
Definition num_le (a b : JsNum) : bool :=
  match a, b with
  | NaN, _ | _, NaN => false
  | NegInf, _ => true
  | _, PosInf => true
  | _, NegInf => false
  | PosInf, _ => false
  | Fin x, Fin y => Qle_bool x y
  end.

Definition is_NaN (a : JsNum) : bool :=
  match a with NaN => true | _ => false end.

(** An integer-valued number, the range of [parseInt]: NaN, a finite
    integer, or an infinity ([IntInf true] is [+Infinity]). *)
Inductive JsInt : Type :=
| IntNaN : JsInt
| Int : Z -> JsInt
| IntInf : bool -> JsInt.

(** [a < b]: false as soon as one side is NaN. *)
Definition int_lt (a b : JsInt) : bool :=
  match a, b with
  | Int x, Int y => x <? y
  | IntInf false, Int _ | IntInf false, IntInf true | Int _, IntInf true => true
  | _, _ => false
  end.

(** [Math.max(a, b)] and [Math.min(a, b)] for a finite [a]. *)
Definition Math_max (a : Z) (b : JsInt) : JsInt :=
  match b with
  | IntNaN => IntNaN
  | Int z => Int (Z.max a z)
  | IntInf true => IntInf true
  | IntInf false => Int a
  end.

Definition Math_min (a : Z) (b : JsInt) : JsInt :=
  match b with
  | IntNaN => IntNaN
  | Int z => Int (Z.min a z)
  | IntInf true => Int a
  | IntInf false => IntInf false
  end.

(** The Number value of an integer: the nearest double, ties to the even
    mantissa.  An integer below 2^53 in magnitude is its own double;
    above, 53 leading bits are kept; past the largest double the value is
    an infinity. *)
Definition to_double (z : Z) : JsInt :=
  let a := Z.abs z in
  if a <? 2 ^ 53 then Int z
  else
    let e := Z.log2 a - 52 in
    let m := Z.shiftr a e in
    let r := a - Z.shiftl m e in
    let half := Z.shiftl 1 (e - 1) in
    let m' := if ((half <? r) || ((r =? half) && Z.odd m))%bool
              then m + 1 else m in
    let v := Z.shiftl m' e in
    if 2 ^ 1024 <=? v then IntInf (0 <? z) else Int (Z.sgn z * v).

Module ParseInt.

Definition digit_val (c : ascii) : option Z :=
  if Js.between 48 57 c then Some (Z.of_nat (Js.code c - 48))
  else if Js.between 97 122 c then Some (Z.of_nat (Js.code c - 87))
  else if Js.between 65 90 c then Some (Z.of_nat (Js.code c - 55))
  else None.

(** The longest prefix of digits of the radix, read left to right;
    [acc] is [None] until a digit has been seen. *)
Fixpoint digits (radix : Z) (acc : option Z) (s : string) : option Z :=
  match s with
  | EmptyString => acc
  | String c r =>
      match digit_val c with
      | Some d =>
          if d <? radix
          then digits radix (Some (match acc with Some a => a * radix + d | None => d end)) r
          else acc
      | None => acc
      end
  end.

Definition unsigned (s : string) : option Z :=
  match s with
  | String "0" (String "x" r) | String "0" (String "X" r) => digits 16 None r
  | _ => digits 10 None s
  end.

(** The integer the text denotes, sign included; [None] without a digit. *)
Definition mathInt (s : string) : option Z :=
  match Js.trimStart s with
  | String "-" r => option_map Z.opp (unsigned r)
  | String "+" r => unsigned r
  | r => unsigned r
  end.

(** [parseInt(s)] with no radix argument: NaN without a digit, else the
    Number value of the integer read, rounded to the nearest double as
    the engine under Node does. *)
Definition parseInt (s : string) : JsInt :=
  match mathInt s with
  | None => IntNaN
  | Some z => to_double z
  end.

End ParseInt.

(** [Number.prototype.toString(36)] of a non-negative integer. *)
Module Base36.

Definition digit (d : N) : ascii :=
  if (d <? 10)%N then ascii_of_N (48 + d) else ascii_of_N (87 + d).

Fixpoint go (fuel : nat) (n : N) (acc : string) : string :=
  match fuel with
  | O => acc
  | S k =>
      let acc' := String (digit (n mod 36)%N) acc in
      if (n <? 36)%N then acc' else go k (n / 36)%N acc'
  end.

Definition toString36 (n : N) : string :=
  go (S (N.to_nat (N.size n))) n EmptyString.

End Base36.

(* ================================================================== *)
(** ** Documents, projections and responses *)

Inductive Status : Type := pending | reviewed | contacted | rejected.

Definition status_name (s : Status) : string :=
  match s with
  | pending => "pending"
  | reviewed => "reviewed"
  | contacted => "contacted"
  | rejected => "rejected"
  end.

(** [validStatuses], in the order of the source. *)
Definition validStatuses : list Status := [pending; reviewed; contacted; rejected].

(** [validStatuses.includes(status)], returning the member found. *)
Definition includes_status (s : string) : option Status :=
  find (fun v => String.eqb (status_name v) s) validStatuses.

(** A document of the [Applicant] model, one field per schema path. *)
Record Applicant : Type := mkApplicant {
  anonymousId : string;
  name : string;
  email : string;
  phone : string;
  position : string;
  experience : JsNum;
  skills : list string;
  education : string;
  submittedAt : N;
  status : Status
}.

Definition Store : Type := list Applicant.

Inductive FieldValue : Type :=
| VString : string -> FieldValue
| VNumber : JsNum -> FieldValue
| VStrings : list string -> FieldValue
| VDate : N -> FieldValue
| VObjectId : FieldValue.

Definition JsObject : Type := list (string * FieldValue).

Definition keys (o : JsObject) : list string := map fst o.

(** A document as an object.  Its [_id] is the ObjectId the store gave
    it, whose value the model does not follow. *)
Definition toObject (a : Applicant) : JsObject :=
  [ ("_id", VObjectId);
    ("anonymousId", VString (anonymousId a));
    ("name", VString (name a));
    ("email", VString (email a));
    ("phone", VString (phone a));
    ("position", VString (position a));
    ("experience", VNumber (experience a));
    ("skills", VStrings (skills a));
    ("education", VString (education a));
    ("submittedAt", VDate (submittedAt a));
    ("status", VString (status_name (status a))) ].

(** An inclusion projection [{f1: 1, ..., fn: 1, _id: 0}]: the listed
    paths are kept, in the order of the document. *)
Definition project (fields : list string) (a : Applicant) : JsObject :=
  filter (fun kv => existsb (String.eqb (fst kv)) fields) (toObject a).

Definition anonymized_fields : list string :=
  ["anonymousId"; "position"; "experience"; "skills"; "education";
   "submittedAt"; "status"].

Definition contact_fields : list string := ["name"; "email"; "phone"].

Definition status_fields : list string := ["anonymousId"; "status"].

(** What [findOneAndUpdate] returns under the option
    [fields: { anonymousId: 1, status: 1, _id: 0 }]: Mongoose selects the
    fields of the option twice and the exclusion of [_id] does not
    survive, so [_id] comes back with the two fields. *)
Definition returned_fields : list string := "_id" :: status_fields.

(** The [pagination] object; in JSON a value that is not finite is sent
    as [null]. *)
Record Pagination : Type := mkPagination {
  page : JsInt;
  limit : JsInt;
  total : Z;
  totalPages : JsInt;
  hasNext : bool;
  hasPrev : bool
}.

(** The JSON bodies the routes send, with their status code. *)
Inductive Response : Type :=
| Created (id : string) (message : string)
| Listing (data : list JsObject) (pagination : Pagination)
| Contact (data : JsObject)
| StatusUpdated (data : JsObject) (message : string)
| Failure (code : Z) (error : string).

Definition status_code (r : Response) : Z :=
  match r with
  | Created _ _ => 201
  | Listing _ _ | Contact _ | StatusUpdated _ _ => 200
  | Failure c _ => c
  end.

(** The objects a response carries in its [data]. *)
Definition response_items (r : Response) : list JsObject :=
  match r with
  | Listing d _ => d
  | Contact o | StatusUpdated o _ => [o]
  | Created _ _ | Failure _ _ => []
  end.

(** What a rejected store call or a throwing expression raises. *)
Inductive Exn : Type :=
| SyntaxError
| CastError
| ValidationError
| MongoServerError (code : Z).

(* ================================================================== *)
(** ** The store *)

Definition has_id (id : string) (a : Applicant) : bool :=
  String.eqb (anonymousId a) id.

(** [Applicant.findOne({ anonymousId: id })] *)
Definition findOne_by_id (id : string) (st : Store) : option Applicant :=
  find (has_id id) st.

(** [Applicant.findOne({ email, position })] *)
Definition findOne_by_email_position (e p : string) (st : Store)
  : option Applicant :=
  find (fun a => String.eqb (email a) e && String.eqb (position a) p)%bool st.

(** The validators of [applicantSchema] that run before a write:
    [required] on the string paths (an empty string is missing),
    the cast of [experience] to a number, and [min: 0]. *)
Definition schema_valid (a : Applicant) : bool :=
  (negb (Js.falsy_string (anonymousId a))
   && negb (Js.falsy_string (name a))
   && negb (Js.falsy_string (email a))
   && negb (Js.falsy_string (phone a))
   && negb (Js.falsy_string (position a))
   && negb (is_NaN (experience a))
   && num_le (Fin 0) (experience a)
   && negb (Js.falsy_string (education a)))%bool.

(** [doc.save()] of a new document: validation, then the insert, which
    the unique index on [anonymousId] rejects with code 11000. *)
Definition save (st : Store) (a : Applicant) : Exn + Store :=
  if negb (schema_valid a) then inl ValidationError
  else if existsb (has_id (anonymousId a)) st then inl (MongoServerError 11000)
  else inr (st ++ [a])%list.

Definition set_status (v : Status) (a : Applicant) : Applicant :=
  mkApplicant (anonymousId a) (name a) (email a) (phone a) (position a)
    (experience a) (skills a) (education a) (submittedAt a) v.

(** [findOneAndUpdate({ anonymousId: id }, { status }, { new: true })]:
    the first match is updated and returned. *)
Fixpoint findOneAndUpdate (id : string) (v : Status) (st : Store)
  : option Applicant * Store :=
  match st with
  | [] => (None, [])
  | a :: r =>
      if has_id id a then (Some (set_status v a), set_status v a :: r)
      else let (found, r') := findOneAndUpdate id v r in (found, a :: r')
  end.

(** [.sort({ submittedAt: -1 })].  The source leaves the order of
    documents of equal date to the store; here the one inserted later
    comes first. *)
Fixpoint insert_desc (a : Applicant) (l : list Applicant) : list Applicant :=
  match l with
  | [] => [a]
  | b :: r =>
      if (submittedAt a <? submittedAt b)%N || (submittedAt a =? submittedAt b)%N
      then b :: insert_desc a r
      else a :: l
  end.

Definition sort_desc (l : list Applicant) : list Applicant :=
  fold_right insert_desc [] l.

(* ================================================================== *)
(** ** Contact reveal and status update *)

(** [GET /api/applicants/:id] *)
Definition getContact (st : Store) (id : string) : Response :=
  match findOne_by_id id st with
  | None => Failure 404 "Applicant not found"
  | Some a => Contact (project contact_fields a)
  end.

(** [PATCH /api/applicants/:id/status]; [body_status] is [req.body.status]. *)
Definition updateStatus (st : Store) (id : string) (body_status : option string)
  : Response * Store :=
  match (if Js.falsy body_status then None
         else match body_status with
              | Some s => includes_status s
              | None => None
              end) with
  | None =>
      (Failure 400 "Valid status is required: pending, reviewed, contacted, rejected", st)
  | Some v =>
      match findOneAndUpdate id v st with
      | (None, _) => (Failure 404 "Applicant not found", st)
      | (Some a, st') =>
          (StatusUpdated (project returned_fields a)
             "Status updated successfully", st')
      end
  end.

(* ================================================================== *)
(** ** Validators and the identifier *)

(** [[^\s@]] *)
Definition not_space_at (c : ascii) : bool :=
  negb (Js.is_space c || Ascii.eqb c "@").

(** [/^[^\s@]+@[^\s@]+\.[^\s@]+$/] *)
Definition emailRegex : Regex.re :=
  Regex.Cat (Regex.Plus (Regex.Class not_space_at))
    (Regex.Cat (Regex.char "@")
       (Regex.Cat (Regex.Plus (Regex.Class not_space_at))
          (Regex.Cat (Regex.char ".")
             (Regex.Plus (Regex.Class not_space_at))))).

Definition validateEmail (email : string) : bool :=
  Regex.test emailRegex email.

(** [/^[\+]?[1-9][\d]{0,15}$/] *)
Definition phoneRegex : Regex.re :=
  Regex.Cat (Regex.Opt (Regex.char "+"))
    (Regex.Cat (Regex.Class (Js.between 49 57))
       (Regex.UpTo 15 (Regex.Class Js.is_digit))).

(** [[\s\-\(\)]] *)
Definition phone_noise (c : ascii) : bool :=
  (Js.is_space c || Ascii.eqb c "-" || Ascii.eqb c "(" || Ascii.eqb c ")")%bool.

Definition validatePhone (phone : string) : bool :=
  Regex.test phoneRegex (Js.remove_chars phone_noise phone).

(** What a request reads from outside: the clock when the identifier is
    made, the text of [Math.random().toString(36)], and the clock when the
    document is constructed ([default: Date.now]). *)
Record Env : Type := mkEnv {
  now_at_id : N;
  random36 : string;
  now_at_doc : N
}.

Definition generateAnonymousId (env : Env) : string :=
  let timestamp := Base36.toString36 (now_at_id env) in
  let random := Js.substr 2 5 (random36 env) in
  Js.toUpperCase ("APP" ++ timestamp ++ random).

(* ================================================================== *)
(** ** Requests *)

Inductive NumOrStr : Type :=
| Num : Q -> NumOrStr
| Str : string -> NumOrStr.

Inductive StrOrArr : Type :=
| OneString : string -> StrOrArr
| Array : list string -> StrOrArr.

(** [req.body] of a submission; [None] is an absent field. *)
Module Body.
Record t : Type := mk {
  name : option string;
  email : option string;
  phone : option string;
  position : option string;
  experience : option NumOrStr;
  skills : option StrOrArr;
  education : option string
}.
End Body.

(** The object handed to [new Applicant(...)]. *)
Module ApplicantData.
Record t : Type := mk {
  name : string;
  email : string;
  phone : string;
  position : string;
  experience : JsNum;
  skills : list string;
  education : string;
  anonymousId : string
}.
End ApplicantData.

(** [req.query] of a listing; every value is a string or absent. *)
Module Query.
Record t : Type := mk {
  position : option string;
  minExperience : option string;
  maxExperience : option string;
  skills : option string;
  page : option string;
  limit : option string
}.
End Query.

Definition falsy_scalar (v : option NumOrStr) : bool :=
  match v with
  | None => true
  | Some (Num q) => Qeq_bool q 0
  | Some (Str s) => Js.falsy_string s
  end.

Definition falsy_skills (v : option StrOrArr) : bool :=
  match v with
  | None => true
  | Some (OneString s) => Js.falsy_string s
  | Some (Array _) => false
  end.

(** The document built from [applicantData]: the schema's setters
    ([trim], [lowercase]) and defaults ([submittedAt], [status]). *)
Definition new_Applicant (now : N) (d : ApplicantData.t) : Applicant :=
  {| anonymousId := ApplicantData.anonymousId d;
     name := Js.trim (ApplicantData.name d);
     email := Js.toLowerCase (Js.trim (ApplicantData.email d));
     phone := Js.trim (ApplicantData.phone d);
     position := Js.trim (ApplicantData.position d);
     experience := ApplicantData.experience d;
     skills := map Js.trim (ApplicantData.skills d);
     education := Js.trim (ApplicantData.education d);
     submittedAt := now;
     status := pending |}.

(** The [catch] of the submission route. *)
Definition submit_catch (e : Exn) : Response :=
  match e with
  | MongoServerError code =>
      if code =? 11000
      then Failure 500 "Duplicate application detected. Please try again."
      else Failure 500 "Internal server error"
  | _ => Failure 500 "Internal server error"
  end.

(** The filter object of a listing, each regular expression compiled. *)
Record Filter : Type := mkFilter {
  by_position : option (string -> bool);
  by_gte : option JsNum;
  by_lte : option JsNum;
  by_skills : option (list (string -> bool))
}.

Definition holds {A : Type} (c : option A) (p : A -> bool) : bool :=
  match c with None => true | Some x => p x end.

(** Whether a document satisfies the filter: a regular expression on
    [position], bounds on [experience], and [$in] over the elements of
    [skills]. *)
Definition matches (f : Filter) (a : Applicant) : bool :=
  (holds (by_position f) (fun m => m (position a))
   && holds (by_gte f) (fun lo => num_le lo (experience a))
   && holds (by_lte f) (fun hi => num_le (experience a) hi)
   && holds (by_skills f)
        (fun ms => existsb (fun s => existsb (fun m => m s) ms) (skills a)))%bool.

(** The query cast of the store: a NaN bound on a [Number] path is refused. *)
Definition nan_bound (b : option JsNum) : bool :=
  match b with Some NaN => true | _ => false end.

Definition cast_fails (f : Filter) : bool :=
  (nan_bound (by_gte f) || nan_bound (by_lte f))%bool.

(** [find(filter, projection).sort(...).skip(skip).limit(limitNum)], before
    projection.  What the store does with a skip or limit that is NaN or
    infinite is not decided by the source: [nan_window] stands for it,
    applied to the sorted matches. *)
Definition find_window (nan_window : list Applicant -> Exn + list Applicant)
           (f : Filter) (skip limitNum : JsInt) (st : Store)
  : Exn + list Applicant :=
  if cast_fails f then inl CastError
  else match skip, limitNum with
       | Int s, Int l =>
           inr (firstn (Z.to_nat l)
                  (skipn (Z.to_nat s) (sort_desc (filter (matches f) st))))
       | _, _ => nan_window (sort_desc (filter (matches f) st))
       end.

(** [countDocuments(filter)] *)
Definition countDocuments (f : Filter) (st : Store) : Exn + Z :=
  if cast_fails f then inl CastError
  else inr (Z.of_nat (List.length (filter (matches f) st))).

(** [Math.ceil(total / limitNum)] for a positive [limitNum]. *)
Definition ceil_div (a b : Z) : Z := (a + b - 1) / b.

(** Two documents that agree on every field but [status]. *)
Definition same_but_status (a b : Applicant) : Prop :=
  anonymousId a = anonymousId b /\ name a = name b /\ email a = email b
  /\ phone a = phone b /\ position a = position b
  /\ experience a = experience b /\ skills a = skills b
  /\ education a = education b /\ submittedAt a = submittedAt b.

(** The pair that the existence check of a submission looks up. *)
Definition email_position (a : Applicant) : string * string :=
  (email a, position a).

Definition unique_email_position (st : Store) : Prop :=
  NoDup (map email_position st).

(** A body with its name, or its experience, replaced. *)
Definition with_name (n : option string) (b : Body.t) : Body.t :=
  Body.mk n (Body.email b) (Body.phone b) (Body.position b)
    (Body.experience b) (Body.skills b) (Body.education b).

Definition with_experience (x : option NumOrStr) (b : Body.t) : Body.t :=
  Body.mk (Body.name b) (Body.email b) (Body.phone b) (Body.position b)
    x (Body.skills b) (Body.education b).

Fixpoint all_some {A : Type} (l : list (option A)) : option (list A) :=
  match l with
  | [] => Some []
  | None :: _ => None
  | Some x :: r => option_map (cons x) (all_some r)
  end.

(* ================================================================== *)
(** ** Submission and listing

    Three things outside the source are taken as given: [Number] applied
    to a string; the construction of a case-insensitive regular expression
    from a pattern supplied by the caller ([None] when the pattern is
    refused with a syntax error); and what the store answers when the skip
    or the limit of a query is NaN. *)

Section Server.

Variable Number_of_string : string -> JsNum.
Variable RegExp_i : string -> option (string -> bool).
Variable nan_window : list Applicant -> Exn + list Applicant.

(** The number a comparison or [Number(...)] reads from [experience]. *)
Definition ToNumber (v : NumOrStr) : JsNum :=
  match v with
  | Num q => Fin q
  | Str s => Number_of_string s
  end.

(** The destructured body once the first test of the route has passed. *)
Record Fields : Type := mkFields {
  f_name : string;
  f_email : string;
  f_phone : string;
  f_position : string;
  f_experience : NumOrStr;
  f_skills : StrOrArr;
  f_education : string
}.

(** [!name || !email || !phone || !position || !experience || !skills
    || !education]: [None] when the test fires. *)
Definition all_fields (b : Body.t) : option Fields :=
  if (Js.falsy (Body.name b) || Js.falsy (Body.email b)
      || Js.falsy (Body.phone b) || Js.falsy (Body.position b)
      || falsy_scalar (Body.experience b) || falsy_skills (Body.skills b)
      || Js.falsy (Body.education b))%bool
  then None
  else
    match Body.name b, Body.email b, Body.phone b, Body.position b with
    | Some n, Some e, Some p, Some pos =>
        match Body.experience b, Body.skills b, Body.education b with
        | Some x, Some sk, Some ed => Some (mkFields n e p pos x sk ed)
        | _, _, _ => None
        end
    | _, _, _, _ => None
    end.

Definition skills_list (sk : StrOrArr) : list string :=
  match sk with
  | Array l => l
  | OneString s =>
      filter (fun skill => negb (Nat.eqb (String.length skill) 0))
        (map Js.trim (Js.split_on "," s))
  end.

Definition applicantData (env : Env) (f : Fields) : ApplicantData.t :=
  {| ApplicantData.name := Js.trim (f_name f);
     ApplicantData.email := Js.toLowerCase (Js.trim (f_email f));
     ApplicantData.phone := Js.trim (f_phone f);
     ApplicantData.position := Js.trim (f_position f);
     ApplicantData.experience := ToNumber (f_experience f);
     ApplicantData.skills := skills_list (f_skills f);
     ApplicantData.education := Js.trim (f_education f);
     ApplicantData.anonymousId := generateAnonymousId env |}.

(** The checks of the route after the presence test, in order:
    [None] when all pass, else the 400 response. *)
Definition validation_error (f : Fields) : option Response :=
  if negb (validateEmail (f_email f))
  then Some (Failure 400 "Invalid email format")
  else if negb (validatePhone (f_phone f))
  then Some (Failure 400 "Invalid phone number format")
  else if (num_lt (ToNumber (f_experience f)) (Fin 0)
           || num_gt (ToNumber (f_experience f)) (Fin 50))%bool
  then Some (Failure 400 "Experience must be between 0 and 50 years")
  else None.

(** [POST /api/applicants] *)
Definition submit (env : Env) (st : Store) (b : Body.t) : Response * Store :=
  match all_fields b with
  | None => (Failure 400 "All fields are required", st)
  | Some f =>
      match validation_error f with
      | Some r => (r, st)
      | None =>
          let d := applicantData env f in
          match findOne_by_email_position
                  (ApplicantData.email d) (ApplicantData.position d) st with
          | Some _ =>
              (Failure 409 "You have already applied for this position", st)
          | None =>
              let applicant := new_Applicant (now_at_doc env) d in
              match save st applicant with
              | inl err => (submit_catch err, st)
              | inr st' =>
                  (Created (anonymousId applicant)
                     "Application submitted successfully", st')
              end
          end
      end
  end.

(** The handler up to the answer of [await Applicant.findOne(...)]: the
    response with which it returns there, or the document it goes on to
    save. *)
Definition submit_check (env : Env) (st : Store) (b : Body.t)
  : Response + Applicant :=
  match all_fields b with
  | None => inl (Failure 400 "All fields are required")
  | Some f =>
      match validation_error f with
      | Some r => inl r
      | None =>
          let d := applicantData env f in
          match findOne_by_email_position
                  (ApplicantData.email d) (ApplicantData.position d) st with
          | Some _ =>
              inl (Failure 409 "You have already applied for this position")
          | None => inr (new_Applicant (now_at_doc env) d)
          end
      end
  end.

(** The handler from [await applicant.save()] on. *)
Definition submit_write (st : Store) (applicant : Applicant)
  : Response * Store :=
  match save st applicant with
  | inl err => (submit_catch err, st)
  | inr st' =>
      (Created (anonymousId applicant) "Application submitted successfully",
       st')
  end.

(** The handler resumed after the existence check, on the store as it is
    by then. *)
Definition submit_resume (st : Store) (c : Response + Applicant)
  : Response * Store :=
  match c with
  | inl r => (r, st)
  | inr applicant => submit_write st applicant
  end.

(** Two submissions that overlap: the second request arrives while the
    first awaits [findOne], so both existence checks are answered from
    the store as it was, and the two saves follow, the first request's
    first. *)
Definition overlapped (env1 : Env) (b1 : Body.t) (env2 : Env) (b2 : Body.t)
           (st : Store) : Response * Response * Store :=
  let c1 := submit_check env1 st b1 in
  let c2 := submit_check env2 st b2 in
  let (r1, st1) := submit_resume st c1 in
  let (r2, st2) := submit_resume st1 c2 in
  (r1, r2, st2).

(** The document a submission writes, field by field. *)
Definition stored (env : Env) (f : Fields) : Applicant :=
  {| anonymousId := generateAnonymousId env;
     name := Js.trim (f_name f);
     email := Js.toLowerCase (Js.trim (f_email f));
     phone := Js.trim (f_phone f);
     position := Js.trim (f_position f);
     experience := ToNumber (f_experience f);
     skills := map Js.trim (skills_list (f_skills f));
     education := Js.trim (f_education f);
     submittedAt := now_at_doc env;
     status := pending |}.

(** Every way a submission can end. *)
Inductive Outcome (env : Env) (st : Store) (b : Body.t)
  : Response -> Store -> Prop :=
| MissingField :
    all_fields b = None ->
    Outcome env st b (Failure 400 "All fields are required") st
| Invalid f r :
    all_fields b = Some f -> validation_error f = Some r ->
    Outcome env st b r st
| Duplicate f x :
    all_fields b = Some f -> validation_error f = None ->
    findOne_by_email_position (email (stored env f)) (position (stored env f)) st
    = Some x ->
    Outcome env st b
      (Failure 409 "You have already applied for this position") st
| WriteFailed f e :
    all_fields b = Some f -> validation_error f = None ->
    findOne_by_email_position (email (stored env f)) (position (stored env f)) st
    = None ->
    save st (stored env f) = inl e ->
    Outcome env st b (submit_catch e) st
| Written f :
    all_fields b = Some f -> validation_error f = None ->
    findOne_by_email_position (email (stored env f)) (position (stored env f)) st
    = None ->
    save st (stored env f) = inr (st ++ [stored env f])%list ->
    Outcome env st b
      (Created (generateAnonymousId env) "Application submitted successfully")
      (st ++ [stored env f])%list.

Definition truthy (v : option string) : option string :=
  if Js.falsy v then None else v.

(** The filter built from the query; a refused pattern throws. *)
Definition build_filter (q : Query.t) : Exn + Filter :=
  match (match truthy (Query.position q) with
         | None => Some None
         | Some p => option_map Some (RegExp_i p)
         end) with
  | None => inl SyntaxError
  | Some pos =>
      let lo := option_map Number_of_string (truthy (Query.minExperience q)) in
      let hi := option_map Number_of_string (truthy (Query.maxExperience q)) in
      match (match truthy (Query.skills q) with
             | None => Some None
             | Some s =>
                 let skillsArray := map Js.trim (Js.split_on "," s) in
                 option_map Some (all_some (map RegExp_i skillsArray))
             end) with
      | None => inl SyntaxError
      | Some sk => inr (mkFilter pos lo hi sk)
      end
  end.

(** [parseInt(page)] with [page = 1] when absent, and likewise [limit]. *)
Definition int_param (v : option string) (default : Z) : JsInt :=
  match v with
  | None => Int default
  | Some s => ParseInt.parseInt s
  end.

Definition pageNum (q : Query.t) : JsInt :=
  Math_max 1 (int_param (Query.page q) 1).

Definition limitNum (q : Query.t) : JsInt :=
  Math_min 50 (Math_max 1 (int_param (Query.limit q) 10)).

(** [(pageNum - 1) * limitNum].  [limitNum] is never infinite and is
    positive when finite, so an infinite page gives an infinite skip.
    The product of a finite page is taken exactly.  It is the source's
    double whenever it is below 2^53; past that the source rounds it,
    and past the largest double makes it [Infinity], on pages that lie
    beyond the end of any collection. *)
Definition skip (q : Query.t) : JsInt :=
  match pageNum q, limitNum q with
  | Int p, Int l => Int ((p - 1) * l)
  | IntInf s, Int l => if l =? 0 then IntNaN else IntInf (Bool.eqb s (0 <? l))
  | _, _ => IntNaN
  end.

(** [Math.ceil(total / limitNum)] *)
Definition pages (total : Z) (limitNum : JsInt) : JsInt :=
  match limitNum with
  | IntNaN => IntNaN
  | Int l => Int (ceil_div total l)
  | IntInf _ => Int 0
  end.

(** [GET /api/applicants] *)
Definition listApplicants (st : Store) (q : Query.t) : Response :=
  match build_filter q with
  | inl _ => Failure 500 "Internal server error"
  | inr f =>
      match find_window nan_window f (skip q) (limitNum q) st,
            countDocuments f st with
      | inr applicants, inr total =>
          let totalPages := pages total (limitNum q) in
          Listing (map (project anonymized_fields) applicants)
            {| page := pageNum q; limit := limitNum q; total := total;
               totalPages := totalPages;
               hasNext := int_lt (pageNum q) totalPages;
               hasPrev := int_lt (Int 1) (pageNum q) |}
      | _, _ => Failure 500 "Internal server error"
      end
  end.

(** The requests of the API that the model covers. *)
Inductive Request : Type :=
| PostApplicant (env : Env) (b : Body.t)
| GetApplicants (q : Query.t)
| GetApplicant (id : string)
| PatchStatus (id : string) (body_status : option string).

Definition handle (st : Store) (r : Request) : Response * Store :=
  match r with
  | PostApplicant env b => submit env st b
  | GetApplicants q => (listApplicants st q, st)
  | GetApplicant id => (getContact st id, st)
  | PatchStatus id s => updateStatus st id s
  end.

(** The store after a sequence of requests. *)
Definition run (st : Store) (rs : list Request) : Store :=
  fold_left (fun s r => snd (handle s r)) rs st.

End Server.

(* ================================================================== *)
(** ** The client form

    [applicationSchema.name]:
    [z.string().trim().min(2, ...).max(100, ...)]; the form posts only
    when no rule reports an error. *)

Module Form.

(** The error the schema attaches to the field [name], if any. *)
Definition name_error (input : string) : option (string * string) :=
  let n := String.length (Js.trim input) in
  if Nat.ltb n 2 then Some ("name", "Name must be at least 2 characters")
  else if Nat.ltb 100 n then Some ("name", "Name must be less than 100 characters")
  else None.

End Form.

(* ================================================================== *)
(** ** A runtime and data for the examples

    Stand-ins for what the server takes as given, exact on the inputs the
    examples give them: [Number] on strings of decimal digits, regular
    expressions whose pattern is made of letters, digits and spaces
    (a case-insensitive search for the pattern), and a store that refuses
    a NaN skip or limit. *)

Module Sample.

Definition Number_of_string (s : string) : JsNum :=
  match s with
  | EmptyString => Fin 0
  | _ =>
      if Nat.eqb (String.length (Js.remove_chars Js.is_digit s)) 0
      then match ParseInt.digits 10 None s with
           | Some z => Fin (inject_Z z)
           | None => NaN
           end
      else NaN
  end.

Definition plain (c : ascii) : bool :=
  (Js.is_digit c || Js.between 65 90 c || Js.between 97 122 c
   || Nat.eqb (Js.code c) 32)%bool.

Fixpoint contains (p s : string) : bool :=
  (String.prefix p s
   || match s with
      | EmptyString => false
      | String _ r => contains p r
      end)%bool.

Definition RegExp_i (pattern : string) : option (string -> bool) :=
  if Nat.eqb (String.length (Js.remove_chars plain pattern)) 0
  then Some (fun s => contains (Js.toLowerCase pattern) (Js.toLowerCase s))
  else None.

Definition env0 : Env := mkEnv 1730000000000 "0.4fzyo82mvyr" 1730000000001.
Definition env1 : Env := mkEnv 1730000005000 "0.9k2j1x7qpl" 1730000005002.

(** The submission of the scenario of the specification. *)
Definition jane : Body.t :=
  Body.mk (Some "Jane Doe") (Some "jane@x.com") (Some "+12025550123")
    (Some "Engineer") (Some (Num 3)) (Some (OneString "Go,SQL")) (Some "BSc").

(** Another applicant, as the client form posts it. *)
Definition bob : Body.t :=
  Body.mk (Some "Bob Roe") (Some "bob@y.org") (Some "+27 82 555 0100")
    (Some "Analyst") (Some (Num 7)) (Some (Array ["R"; "SQL"])) (Some "MSc").

(** Jane again for the same position, every other field changed. *)
Definition jane_again : Body.t :=
  Body.mk (Some "J. Doe") (Some "jane@x.com") (Some "+442071234567")
    (Some "Engineer") (Some (Num 12)) (Some (Array ["Rust"])) (Some "PhD").

Definition jane_again_record : Applicant :=
  {| anonymousId := "APPM2R1C32G9K2J1";
     name := "J. Doe";
     email := "jane@x.com";
     phone := "+442071234567";
     position := "Engineer";
     experience := Fin 12;
     skills := ["Rust"];
     education := "PhD";
     submittedAt := 1730000005002;
     status := pending |}.

Definition jane_record : Applicant :=
  {| anonymousId := "APPM2R1BZ7K4FZYO";
     name := "Jane Doe";
     email := "jane@x.com";
     phone := "+12025550123";
     position := "Engineer";
     experience := Fin 3;
     skills := ["Go"; "SQL"];
     education := "BSc";
     submittedAt := 1730000000001;
     status := pending |}.

Definition by_position (p : string) : Query.t :=
  Query.mk (Some p) None None None None None.

(** A store that refuses a skip or limit that is NaN. *)
Definition nan_window (sorted : list Applicant) : Exn + list Applicant :=
  inl CastError.

(** The same millisecond and the same random text as Jane's submission. *)
Definition env_collision : Env :=
  mkEnv 1730000000000 "0.4fzyo82mvyr" 1730000000003.

Definition bob_fields : Fields :=
  mkFields "Bob Roe" "bob@y.org" "+27 82 555 0100" "Analyst" (Num 7)
    (Array ["R"; "SQL"]) "MSc".


(** Jane's submission with a name of three spaces, and with her
    experience spelled out. *)
Definition blank_name : Body.t := with_name (Some "   ") jane.

Definition experience_in_words : Body.t :=
  with_experience (Some (Str "three")) jane.

(** Two more records, and a store of three. *)
Definition bob_record : Applicant := stored Number_of_string env1 bob_fields.

Definition ann_record : Applicant :=
  {| anonymousId := "APPM2R1F9ZZABCDE";
     name := "Ann Poe";
     email := "ann@z.net";
     phone := "+4930123456";
     position := "Senior Engineer";
     experience := Fin 9;
     skills := ["Go"];
     education := "MEng";
     submittedAt := 1730000009000;
     status := reviewed |}.

Definition three_records : Store := [jane_record; bob_record; ann_record].

Definition page_of (p l : string) : Query.t :=
  Query.mk None None None None (Some p) (Some l).


(** The decimal text of the pages 1 and 2. *)
Definition page_text (k : nat) : string :=
  if Nat.eqb k 1 then "1" else "2".

(** Jane once more, her email in capitals and her position padded. *)
Definition jane_in_capitals : Body.t :=
  Body.mk (Some "Jane D.") (Some "JANE@X.COM") (Some "+12025550123")
    (Some " Engineer ") (Some (Num 4)) (Some (Array ["Go"])) (Some "BSc").


End Sample.

(* ================================================================== *)
(** ** Statistics

    [GET /api/stats]: the number of documents, and two [$group] stages
    with the accumulator [{ $sum: 1 }], the second followed by
    [{ $sort: { count: -1 } }] and [{ $limit: 10 }].  Groups are listed in
    the order in which their first document is met. *)

Definition Status_eqb (a b : Status) : bool :=
  match a, b with
  | pending, pending | reviewed, reviewed
  | contacted, contacted | rejected, rejected => true
  | _, _ => false
  end.

(** One document more for the group of [k]. *)
Fixpoint bump {K : Type} (eqb : K -> K -> bool) (k : K) (acc : list (K * Z))
  : list (K * Z) :=
  match acc with
  | [] => [(k, 1)]
  | (k', n) :: r =>
      if eqb k' k then (k', n + 1) :: r else (k', n) :: bump eqb k r
  end.

(** [{ $group: { _id: '$key', count: { $sum: 1 } } }] *)
Definition group_count {K : Type} (eqb : K -> K -> bool)
           (key : Applicant -> K) (st : Store) : list (K * Z) :=
  fold_left (fun acc a => bump eqb (key a) acc) st [].

(** [{ $sort: { count: -1 } }] *)
Fixpoint insert_by_count {K : Type} (x : K * Z) (l : list (K * Z))
  : list (K * Z) :=
  match l with
  | [] => [x]
  | y :: r => if snd x <=? snd y then y :: insert_by_count x r else x :: l
  end.

Definition sort_by_count {K : Type} (l : list (K * Z)) : list (K * Z) :=
  fold_right insert_by_count [] l.

(** The [data] of the answer of [GET /api/stats]. *)
Record Stats : Type := mkStats {
  totalApplications : Z;
  applicationsByStatus : list (Status * Z);
  applicationsByPosition : list (string * Z)
}.

Definition getStats (st : Store) : Stats :=
  {| totalApplications := Z.of_nat (List.length st);
     applicationsByStatus := group_count Status_eqb status st;
     applicationsByPosition :=
       firstn 10 (sort_by_count (group_count String.eqb position st)) |}.

(** The number of documents of a group. *)
Definition count_of {K : Type} (eqb : K -> K -> bool) (key : Applicant -> K)
           (k : K) (st : Store) : Z :=
  Z.of_nat (List.length (filter (fun a => eqb (key a) k) st)).

Definition sum_counts {K : Type} (l : list (K * Z)) : Z :=
  fold_right (fun x acc => snd x + acc) 0 l.

(** The count listed for a group, 0 when the group is not listed. *)
Fixpoint listed_count {K : Type} (eqb : K -> K -> bool) (k : K)
         (acc : list (K * Z)) : Z :=
  match acc with
  | [] => 0
  | (k', n) :: r => if eqb k' k then n else listed_count eqb k r
  end.

(** Largest count first. *)
Definition largest_first {K : Type} (l : list (K * Z)) : Prop :=
  StronglySorted (fun x y => snd y <= snd x) l.

(* ================================================================== *)
(** ** The payload of the client form

    [onSubmit] posts the validated form data with [skills] replaced by
    [data.skills.split(",").map((s) => s.trim())]. *)

Module FormData.
Record t : Type := mk {
  name : string;
  email : string;
  phone : string;
  position : string;
  experience : Q;
  skills : string;
  education : string
}.
End FormData.

Definition payload (data : FormData.t) : Body.t :=
  Body.mk (Some (FormData.name data)) (Some (FormData.email data))
    (Some (FormData.phone data)) (Some (FormData.position data))
    (Some (Num (FormData.experience data)))
    (Some (Array (map Js.trim (Js.split_on "," (FormData.skills data)))))
    (Some (FormData.education data)).

(** What the form holds when Jane leaves an empty piece among her skills. *)
Definition form_jane : FormData.t :=
  FormData.mk "Jane Doe" "jane@x.com" "+12025550123" "Engineer" 3
    "Go,, SQL" "BSc".

(* ================================================================== *)
(** ** Notions used to state the properties *)

(** The strings a regular expression denotes. *)
Inductive Matches : Regex.re -> string -> Prop :=
| MEps : Matches Regex.Eps EmptyString
| MClass p c : p c = true -> Matches (Regex.Class p) (String c EmptyString)
| MCat a b s1 s2 :
    Matches a s1 -> Matches b s2 -> Matches (Regex.Cat a b) (s1 ++ s2)
| MAltL a b s : Matches a s -> Matches (Regex.Alt a b) s
| MAltR a b s : Matches b s -> Matches (Regex.Alt a b) s
| MStar0 a : Matches (Regex.Star a) EmptyString
| MStarS a s1 s2 :
    Matches a s1 -> Matches (Regex.Star a) s2 ->
    Matches (Regex.Star a) (s1 ++ s2).

(** Every character of the string passes the test. *)
Fixpoint all_chars (p : ascii -> bool) (s : string) : bool :=
  match s with
  | EmptyString => true
  | String c r => p c && all_chars p r
  end.

Definition is_lower (c : ascii) : bool := Js.between 97 122 c.

(** No two stored records share an identifier. *)
Definition unique_ids (st : Store) : Prop := NoDup (map anonymousId st).

(** Everything of a record but its status. *)
Definition identity (a : Applicant)
  : string * string * string * string * string * JsNum * list string
    * string * N :=
  (anonymousId a, name a, email a, phone a, position a, experience a,
   skills a, education a, submittedAt a).

(** What the checks of a submission guarantee of a stored record. *)
Definition well_formed (a : Applicant) : Prop :=
  Js.falsy_string (anonymousId a) = false
  /\ Js.falsy_string (name a) = false /\ Js.trim (name a) = name a
  /\ validateEmail (email a) = true
  /\ Js.toLowerCase (email a) = email a /\ Js.trim (email a) = email a
  /\ validatePhone (phone a) = true /\ Js.trim (phone a) = phone a
  /\ Js.falsy_string (position a) = false /\ Js.trim (position a) = position a
  /\ Js.falsy_string (education a) = false
  /\ Js.trim (education a) = education a
  /\ (exists q, experience a = Fin q /\ (0 <= q /\ q <= 50)%Q)
  /\ Forall (fun s => Js.trim s = s) (skills a).


Definition with_page (s : option string) (q : Query.t) : Query.t :=
  Query.mk (Query.position q) (Query.minExperience q)
    (Query.maxExperience q) (Query.skills q) s (Query.limit q).


(* ================================================================== *)
(** * Properties *)

(** ** Strings: the schema setters leave normalised values alone *)

Module JsFacts.
Import Js.

Lemma trimStart_idem (s : string) : trimStart (trimStart s) = trimStart s.
Proof.
  induction s as [|c r IH]; simpl; [reflexivity|].
  destruct (is_space c) eqn:E; [exact IH|].
  simpl. now rewrite E.
Qed.

Lemma trimEnd_cons (c : ascii) (r : string) :
  trimEnd (String c r) =
    match trimEnd r with
    | EmptyString => if is_space c then EmptyString else String c EmptyString
    | r' => String c r'
    end.
Proof. reflexivity. Qed.

Lemma trimEnd_idem (s : string) : trimEnd (trimEnd s) = trimEnd s.
Proof.
  induction s as [|c r IH]; [reflexivity|].
  rewrite trimEnd_cons.
  destruct (trimEnd r) as [|d t] eqn:E.
  - destruct (is_space c) eqn:Ec; [reflexivity|].
    rewrite trimEnd_cons. simpl. now rewrite Ec.
  - rewrite trimEnd_cons, IH. reflexivity.
Qed.

(** Stripping the two ends commutes. *)
Lemma trim_ends_commute (s : string) :
  trimEnd (trimStart s) = trimStart (trimEnd s).
Proof.
  induction s as [|c r IH]; [reflexivity|].
  cbn [trimStart]. rewrite trimEnd_cons.
  destruct (is_space c) eqn:Ec.
  - rewrite IH. destruct (trimEnd r) as [|d t] eqn:E.
    + reflexivity.
    + cbn [trimStart]. now rewrite Ec.
  - rewrite trimEnd_cons.
    destruct (trimEnd r) as [|d t]; cbn [trimStart]; now rewrite Ec.
Qed.

Lemma trim_idem (s : string) : trim (trim s) = trim s.
Proof.
  unfold trim.
  rewrite (trim_ends_commute (trimEnd s)), trimEnd_idem, trimStart_idem.
  reflexivity.
Qed.

Lemma is_space_lower (c : ascii) : is_space (lower_char c) = is_space c.
Proof. destruct c as [[] [] [] [] [] [] [] []]; reflexivity. Qed.

Lemma lower_char_idem (c : ascii) : lower_char (lower_char c) = lower_char c.
Proof. destruct c as [[] [] [] [] [] [] [] []]; reflexivity. Qed.

Lemma toLowerCase_idem (s : string) :
  toLowerCase (toLowerCase s) = toLowerCase s.
Proof.
  unfold toLowerCase.
  induction s as [|c r IH]; cbn [smap]; [reflexivity|].
  now rewrite lower_char_idem, IH.
Qed.

Lemma trimStart_lower (s : string) :
  trimStart (toLowerCase s) = toLowerCase (trimStart s).
Proof.
  unfold toLowerCase.
  induction s as [|c r IH]; cbn [smap trimStart]; [reflexivity|].
  rewrite is_space_lower. destruct (is_space c); [exact IH | reflexivity].
Qed.

Lemma trimEnd_lower (s : string) :
  trimEnd (toLowerCase s) = toLowerCase (trimEnd s).
Proof.
  unfold toLowerCase.
  induction s as [|c r IH]; [reflexivity|].
  cbn [smap]. rewrite !trimEnd_cons, IH, is_space_lower.
  destruct (trimEnd r) as [|d t]; cbn [smap].
  - destruct (is_space c); reflexivity.
  - reflexivity.
Qed.

Lemma trim_lower (s : string) : trim (toLowerCase s) = toLowerCase (trim s).
Proof. unfold trim. now rewrite trimEnd_lower, trimStart_lower. Qed.

(** What the [email] path holds once the handler has normalised it. *)
Lemma email_setter_fixed (s : string) :
  toLowerCase (trim (toLowerCase (trim s))) = toLowerCase (trim s).
Proof. now rewrite trim_lower, trim_idem, toLowerCase_idem. Qed.

Lemma falsy_string_false (s : string) : falsy_string s = false <-> s <> EmptyString.
Proof. destruct s; simpl; split; congruence. Qed.

End JsFacts.

(** ** The validators and the identifier on sample inputs *)

Example validateEmail_samples :
  map validateEmail
    ["jane@x.com"; "a@b.c"; "a@b"; "a b@c.d"; "a@b@c.d"; "@x.com"; "a@.c"]
  = [true; true; false; false; false; false; false].
Proof. reflexivity. Qed.

Example validatePhone_samples :
  map validatePhone
    ["+12025550123"; "+1 (202) 555-0123"; "0123"; "1234567890123456";
     "12345678901234567"; "+"; "12a"]
  = [true; true; false; true; false; false; false].
Proof. reflexivity. Qed.

(** [to_double]: an integer below 2^53 in magnitude is kept; a larger
    one, when the result is finite, goes to a multiple of 2^e by a
    mantissa of 53 bits that is nearest to it, the even mantissa on a
    tie. *)
Lemma to_double_exact (z : Z) : Z.abs z < 2 ^ 53 -> to_double z = Int z.
Proof.
  intros H. unfold to_double. apply Z.ltb_lt in H. now rewrite H.
Qed.

Lemma to_double_nearest (z d : Z) :
  2 ^ 53 <= Z.abs z ->
  to_double z = Int d ->
  exists e m,
    1 <= e /\ 2 ^ 52 <= m <= 2 ^ 53
    /\ Z.abs d = m * 2 ^ e
    /\ Z.sgn d = Z.sgn z
    /\ 2 * Z.abs (d - z) <= 2 ^ e
    /\ (2 * Z.abs (d - z) = 2 ^ e -> Z.even m = true).
Proof.
  intros Hbig. unfold to_double.
  destruct (Z.abs z <? 2 ^ 53) eqn:E; [apply Z.ltb_lt in E; lia|]. clear E.
  set (a := Z.abs z) in *.
  set (e := Z.log2 a - 52).
  assert (Ha : 0 < a) by (pose proof (Z.pow_pos_nonneg 2 53); lia).
  assert (Hlog : 53 <= Z.log2 a) by (apply Z.log2_le_pow2; lia).
  assert (He : 1 <= e) by (subst e; lia).
  destruct (Z.log2_spec a Ha) as [Hlo Hhi].
  rewrite Z.shiftr_div_pow2 by lia.
  set (m := a / 2 ^ e).
  rewrite !Z.shiftl_mul_pow2 by lia.
  assert (Hpe : 0 < 2 ^ e) by (apply Z.pow_pos_nonneg; lia).
  assert (Hsplit : 2 ^ Z.log2 a = 2 ^ 52 * 2 ^ e).
  { rewrite <- Z.pow_add_r by lia. f_equal. subst e. lia. }
  assert (Hsplit' : 2 ^ Z.succ (Z.log2 a) = 2 ^ 53 * 2 ^ e).
  { rewrite <- Z.pow_add_r by lia. f_equal. subst e. lia. }
  assert (Hhalf : 2 ^ e = 2 * 2 ^ (e - 1)).
  { replace e with (1 + (e - 1)) at 1 by lia. rewrite Z.pow_add_r by lia.
    reflexivity. }
  assert (Hm : 2 ^ 52 <= m < 2 ^ 53).
  { subst m. split.
    - apply Z.div_le_lower_bound; lia.
    - apply Z.div_lt_upper_bound; lia. }
  pose proof (Z.div_mod a (2 ^ e) ltac:(lia)) as Hdm.
  pose proof (Z.mod_pos_bound a (2 ^ e) Hpe) as Hr.
  fold m in Hdm.
  set (r := a - m * 2 ^ e).
  assert (Hrr : r = a mod 2 ^ e) by (subst r; lia).
  set (half := 1 * 2 ^ (e - 1)).
  set (m' := if ((half <? r) || ((r =? half) && Z.odd m))%bool then m + 1 else m).
  destruct (2 ^ 1024 <=? m' * 2 ^ e); [discriminate|].
  intros [= <-].
  assert (Hz : z <> 0) by lia.
  assert (Hm' : 2 ^ 52 <= m' <= 2 ^ 53)
    by (subst m'; destruct (_ || _)%bool; lia).
  assert (Hv : 0 < m' * 2 ^ e) by nia.
  exists e, m'. split; [exact He|]. split; [exact Hm'|].
  assert (Hd : Z.abs (Z.sgn z * (m' * 2 ^ e) - z) = Z.abs (m' * 2 ^ e - a)).
  { subst a. destruct (Z.sgn_spec z) as [[? ->]|[[? ->]|[? ->]]]; lia. }
  split; [|split; [|split]].
  - rewrite Z.abs_mul. rewrite (Z.abs_eq (m' * 2 ^ e)) by lia.
    destruct (Z.sgn_spec z) as [[? ->]|[[? ->]|[? ->]]]; lia.
  - rewrite Z.sgn_mul, Z.sgn_sgn. rewrite (Z.sgn_pos (m' * 2 ^ e)) by lia. lia.
  - rewrite Hd. subst m'.
    destruct (half <? r) eqn:E1; cbn [orb].
    + apply Z.ltb_lt in E1. subst half. lia.
    + apply Z.ltb_ge in E1.
      destruct (r =? half) eqn:E2; cbn [andb].
      * apply Z.eqb_eq in E2. destruct (Z.odd m); subst half; lia.
      * subst half. lia.
  - rewrite Hd. subst m'.
    destruct (half <? r) eqn:E1; cbn [orb].
    + apply Z.ltb_lt in E1. subst half. lia.
    + apply Z.ltb_ge in E1.
      destruct (r =? half) eqn:E2; cbn [andb].
      * intros _. destruct (Z.odd m) eqn:Eo.
        -- rewrite Z.add_1_r, Z.even_succ. exact Eo.
        -- rewrite <- Z.negb_odd, Eo. reflexivity.
      * apply Z.eqb_neq in E2. subst half. lia.
Qed.

Example parseInt_samples :
  map ParseInt.parseInt ["1000"; "0"; " 12abc"; "-5"; "0x1f"; "abc"; ""]
  = [Int 1000; Int 0; Int 12; Int (-5); Int 31; IntNaN; IntNaN].
Proof. reflexivity. Qed.

(** Above 2^53 [parseInt] rounds to the nearest double, ties to even, and
    to an infinity past the largest double. *)
Example parseInt_rounds :
  map ParseInt.parseInt
    ["9007199254740991"; "9007199254740992"; "9007199254740993";
     "9007199254740995"; "-9007199254740993"; "18014398509481987"]
  = [Int 9007199254740991; Int 9007199254740992; Int 9007199254740992;
     Int 9007199254740996; Int (-9007199254740992); Int 18014398509481988]
  /\ to_double (2 ^ 1024 - 2 ^ 970 - 1) = Int (2 ^ 1024 - 2 ^ 971)
  /\ to_double (2 ^ 1024 - 2 ^ 970) = IntInf true
  /\ to_double (- 2 ^ 1024) = IntInf false.
Proof. repeat split; vm_compute; reflexivity. Qed.

Example generateAnonymousId_sample :
  generateAnonymousId Sample.env0 = "APPM2R1BZ7K4FZYO".
Proof. reflexivity. Qed.

(** ** The store *)

Module StoreFacts.

Lemma has_id_true (id : string) (a : Applicant) :
  has_id id a = true <-> anonymousId a = id.
Proof. unfold has_id. apply String.eqb_eq. Qed.

Lemma has_id_false (id : string) (a : Applicant) :
  has_id id a = false <-> anonymousId a <> id.
Proof. unfold has_id. apply String.eqb_neq. Qed.

(** [find] returns the first element that satisfies the test. *)
Lemma find_first {A : Type} (p : A -> bool) (l : list A) (x : A) :
  find p l = Some x ->
  exists l1 l2, l = (l1 ++ x :: l2)%list /\ p x = true
                /\ forall y, In y l1 -> p y = false.
Proof.
  induction l as [|a r IH]; simpl; [discriminate|].
  destruct (p a) eqn:E.
  - intros [= ->]. exists [], r. repeat split; auto. intros y [].
  - intros H. destruct (IH H) as (l1 & l2 & -> & Hx & Hl).
    exists (a :: l1), l2. repeat split; auto.
    intros y [<- | Hy]; auto.
Qed.

Lemma find_none {A : Type} (p : A -> bool) (l : list A) :
  find p l = None <-> forall y, In y l -> p y = false.
Proof.
  induction l as [|a r IH]; simpl.
  - split; [intros _ y [] | reflexivity].
  - destruct (p a) eqn:E.
    + split; [discriminate|]. intros H. rewrite (H a) in E; auto. discriminate.
    + rewrite IH. split.
      * intros H y [<- | Hy]; auto.
      * intros H y Hy. apply H. now right.
Qed.


Lemma existsb_false {A : Type} (p : A -> bool) (l : list A) :
  existsb p l = false <-> forall y, In y l -> p y = false.
Proof.
  induction l as [|a r IH]; simpl.
  - split; [intros _ y [] | reflexivity].
  - rewrite orb_false_iff, IH. split.
    + intros [Ha Hr] y [<- | Hy]; auto.
    + intros H. split; [apply H; now left | intros y Hy; apply H; now right].
Qed.

(** The update touches the first match and nothing else. *)
Lemma findOneAndUpdate_hit (id : string) (v : Status)
      (l1 l2 : list Applicant) (a : Applicant) :
  (forall y, In y l1 -> has_id id y = false) ->
  has_id id a = true ->
  findOneAndUpdate id v (l1 ++ a :: l2)%list
  = (Some (set_status v a), (l1 ++ set_status v a :: l2)%list).
Proof.
  induction l1 as [|b r IH]; simpl; intros Hl Ha.
  - now rewrite Ha.
  - rewrite (Hl b) by now left.
    rewrite IH; auto.
Qed.

Lemma findOneAndUpdate_miss (id : string) (v : Status) (st : Store) :
  (forall y, In y st -> has_id id y = false) ->
  findOneAndUpdate id v st = (None, st).
Proof.
  induction st as [|b r IH]; simpl; intros Hl; [reflexivity|].
  rewrite (Hl b) by now left.
  rewrite IH; auto.
Qed.

Lemma includes_status_name (v : Status) :
  includes_status (status_name v) = Some v.
Proof. destruct v; reflexivity. Qed.

Lemma includes_status_some (s : string) (v : Status) :
  includes_status s = Some v -> s = status_name v.
Proof.
  unfold includes_status. intros H.
  apply find_some in H. destruct H as [_ H].
  apply String.eqb_eq in H. now symmetry.
Qed.

(** Sorting is a rearrangement. *)
Lemma insert_desc_perm (a : Applicant) (l : list Applicant) :
  Permutation (insert_desc a l) (a :: l).
Proof.
  induction l as [|b r IH]; simpl; [reflexivity|].
  destruct ((submittedAt a <? submittedAt b)%N || (submittedAt a =? submittedAt b)%N)%bool.
  - rewrite IH. apply perm_swap.
  - reflexivity.
Qed.

Lemma sort_desc_perm (l : list Applicant) : Permutation (sort_desc l) l.
Proof.
  induction l as [|a r IH]; simpl; [reflexivity|].
  rewrite insert_desc_perm. now constructor.
Qed.

Lemma sort_desc_length (l : list Applicant) :
  List.length (sort_desc l) = List.length l.
Proof. apply Permutation_length, sort_desc_perm. Qed.


End StoreFacts.

(** ** Projections *)

Lemma project_anonymized (a : Applicant) :
  project anonymized_fields a =
    [ ("anonymousId", VString (anonymousId a));
      ("position", VString (position a));
      ("experience", VNumber (experience a));
      ("skills", VStrings (skills a));
      ("education", VString (education a));
      ("submittedAt", VDate (submittedAt a));
      ("status", VString (status_name (status a))) ].
Proof. reflexivity. Qed.

Lemma project_contact (a : Applicant) :
  project contact_fields a =
    [ ("name", VString (name a));
      ("email", VString (email a));
      ("phone", VString (phone a)) ].
Proof. reflexivity. Qed.

Lemma project_status (a : Applicant) :
  project returned_fields a =
    [ ("_id", VObjectId);
      ("anonymousId", VString (anonymousId a));
      ("status", VString (status_name (status a))) ].
Proof. reflexivity. Qed.

(* ================================================================== *)
(** ** The two projections *)

(** C1.  Whatever the store holds and whatever the query asks (position,
    minExperience, maxExperience, skills, page, limit), every item that
    [GET /api/applicants] returns has exactly the keys anonymousId,
    position, experience, skills, education, submittedAt and status, and
    none of name, email, phone. *)
Theorem list_items_are_anonymized
        (Number_of_string : string -> JsNum)
        (RegExp_i : string -> option (string -> bool))
        (nan_window : list Applicant -> Exn + list Applicant)
        (st : Store) (q : Query.t) :
  Forall (fun o =>
            keys o = ["anonymousId"; "position"; "experience"; "skills";
                      "education"; "submittedAt"; "status"]
            /\ Forall (fun k => ~ In k (keys o)) ["name"; "email"; "phone"])
         (response_items (listApplicants Number_of_string RegExp_i nan_window st q)).
Proof.
  unfold listApplicants.
  destruct (build_filter _ _ q) as [e | f]; [constructor|].
  destruct (find_window _ f _ _ st) as [e | applicants]; [constructor|].
  destruct (countDocuments f st) as [e | n]; [constructor|].
  cbn [response_items].
  apply Forall_forall. intros o Ho.
  apply in_map_iff in Ho. destruct Ho as (a & <- & _).
  rewrite project_anonymized. cbn [keys map fst]. split; [reflexivity|].
  repeat constructor; cbn [In]; intros H;
    repeat (destruct H as [H | H]; [discriminate H|]); exact H.
Qed.

(** C2.  [GET /api/applicants/:id] answers with exactly the fields name,
    email and phone of the first record whose anonymousId equals the
    identifier, and with 404 when no record has it; its data never holds
    position, experience, skills, education, status or submittedAt. *)
Theorem getContact_reveals_contact_only (st : Store) (id : string) :
  ((exists l1 a l2,
       st = (l1 ++ a :: l2)%list /\ anonymousId a = id
       /\ (forall b, In b l1 -> anonymousId b <> id)
       /\ getContact st id
          = Contact [ ("name", VString (name a));
                      ("email", VString (email a));
                      ("phone", VString (phone a)) ])
   \/ ((forall b, In b st -> anonymousId b <> id)
       /\ getContact st id = Failure 404 "Applicant not found"))
  /\ Forall (fun o =>
               keys o = ["name"; "email"; "phone"]
               /\ Forall (fun k => ~ In k (keys o))
                    ["position"; "experience"; "skills"; "education";
                     "status"; "submittedAt"])
            (response_items (getContact st id)).
Proof.
  unfold getContact, findOne_by_id.
  destruct (find (has_id id) st) as [a|] eqn:E.
  - split.
    + left. destruct (StoreFacts.find_first _ _ E) as (l1 & l2 & -> & Ha & Hl).
      exists l1, a, l2. repeat split.
      * now apply StoreFacts.has_id_true.
      * intros b Hb. now apply StoreFacts.has_id_false, Hl.
    + cbn [response_items]. constructor; [|constructor].
      rewrite project_contact. cbn [keys map fst]. split; [reflexivity|].
      repeat constructor; cbn [In]; intros H;
        repeat (destruct H as [H | H]; [discriminate H|]); exact H.
  - split; [|constructor].
    right. split; [|reflexivity].
    intros b Hb. apply StoreFacts.has_id_false.
    now apply (proj1 (StoreFacts.find_none _ _) E).
Qed.

(* ================================================================== *)
(** ** Status update *)

(** C9.  For every store that holds a record with the given anonymousId
    and every valid status, the status update is answered 200 and leaves
    the store with the status of the first such record rewritten and
    nothing else changed: the other fields of that record (anonymousId,
    name, email, phone, position, experience, skills, education,
    submittedAt) and all the other records are as before, in the same
    order. *)
Theorem updateStatus_frame (st : Store) (id : string) (v : Status)
        (Hex : exists a, In a st /\ anonymousId a = id) :
  exists l1 a a' l2,
    st = (l1 ++ a :: l2)%list
    /\ anonymousId a = id
    /\ (forall b, In b l1 -> anonymousId b <> id)
    /\ same_but_status a a' /\ status a' = v
    /\ snd (updateStatus st id (Some (status_name v))) = (l1 ++ a' :: l2)%list
    /\ status_code (fst (updateStatus st id (Some (status_name v)))) = 200.
Proof.
  destruct (find (has_id id) st) as [a|] eqn:E.
  - destruct (StoreFacts.find_first _ _ E) as (l1 & l2 & -> & Ha & Hl).
    exists l1, a, (set_status v a), l2.
    assert (Hid : anonymousId a = id) by now apply StoreFacts.has_id_true.
    assert (Hu : updateStatus (l1 ++ a :: l2)%list id (Some (status_name v))
                 = (StatusUpdated (project returned_fields (set_status v a))
                      "Status updated successfully",
                    (l1 ++ set_status v a :: l2)%list)).
    { unfold updateStatus.
      replace (Js.falsy (Some (status_name v))) with false by (now destruct v).
      rewrite StoreFacts.includes_status_name.
      now rewrite StoreFacts.findOneAndUpdate_hit by assumption. }
    rewrite Hu. cbn [fst snd status_code].
    repeat split; auto.
    intros b Hb. now apply StoreFacts.has_id_false, Hl.
  - destruct Hex as (a & Hin & Hid).
    apply (proj1 (StoreFacts.find_none _ _)) with (y := a) in E; [|exact Hin].
    apply StoreFacts.has_id_false in E. contradiction.
Qed.

(** C10.  The status is checked before the record is looked up: with a
    status that is absent or not one of pending, reviewed, contacted,
    rejected, the update answers 400 whether or not the anonymousId
    exists, and the store is unchanged. *)
Theorem updateStatus_invalid_status_first
        (st : Store) (id : string) (body_status : option string)
        (Hbad : forall v, body_status <> Some (status_name v)) :
  updateStatus st id body_status
  = (Failure 400
       "Valid status is required: pending, reviewed, contacted, rejected",
     st).
Proof.
  unfold updateStatus.
  destruct (Js.falsy body_status) eqn:Ef; [reflexivity|].
  destruct body_status as [s|]; [|reflexivity].
  destruct (includes_status s) as [v|] eqn:Ev; [|reflexivity].
  apply StoreFacts.includes_status_some in Ev. subst s.
  now elim (Hbad v).
Qed.

(* ================================================================== *)
(** ** Submission *)

Section SubmitFacts.

Variable Number_of_string : string -> JsNum.


Lemma new_Applicant_stored (env : Env) (f : Fields) :
  new_Applicant (now_at_doc env) (applicantData Number_of_string env f) = stored Number_of_string env f.
Proof.
  unfold new_Applicant, applicantData, stored.
  cbn [ApplicantData.name ApplicantData.email ApplicantData.phone
       ApplicantData.position ApplicantData.experience
       ApplicantData.skills ApplicantData.education
       ApplicantData.anonymousId].
  now rewrite !JsFacts.trim_idem, JsFacts.email_setter_fixed.
Qed.

Lemma all_fields_some (b : Body.t) (f : Fields) :
  all_fields b = Some f ->
  Body.name b = Some (f_name f) /\ Body.email b = Some (f_email f)
  /\ Body.phone b = Some (f_phone f) /\ Body.position b = Some (f_position f)
  /\ Body.experience b = Some (f_experience f)
  /\ Body.skills b = Some (f_skills f)
  /\ Body.education b = Some (f_education f)
  /\ falsy_scalar (Body.experience b) = false.
Proof.
  unfold all_fields.
  destruct b as [n e p pos x sk ed]; cbn.
  match goal with
  | |- (if ?c then _ else _) = _ -> _ => destruct c eqn:E; [discriminate|]
  end.
  repeat (apply orb_false_iff in E; destruct E as [E ?]).
  destruct n, e, p, pos, x, sk, ed; try discriminate.
  intros [= <-]. cbn. auto 10.
Qed.

Lemma validation_error_400 (f : Fields) (r : Response) :
  validation_error Number_of_string f = Some r -> status_code r = 400.
Proof.
  unfold validation_error.
  repeat match goal with
         | |- context [if ?c then _ else _] => destruct c
         end; intros [= <-]; reflexivity.
Qed.

Lemma submit_catch_500 (e : Exn) : status_code (submit_catch e) = 500.
Proof.
  destruct e as [| | |code]; try reflexivity.
  simpl. destruct (code =? 11000); reflexivity.
Qed.

Lemma save_inr (st st' : Store) (a : Applicant) :
  save st a = inr st' ->
  st' = (st ++ [a])%list /\ schema_valid a = true
  /\ forall y, In y st -> anonymousId y <> anonymousId a.
Proof.
  unfold save.
  destruct (schema_valid a); [|discriminate]. simpl.
  destruct (existsb (has_id (anonymousId a)) st) eqn:E; [discriminate|].
  intros [= <-]. repeat split.
  intros y Hy. apply StoreFacts.has_id_false.
  now apply (proj1 (StoreFacts.existsb_false _ _) E).
Qed.

Lemma submit_outcome (env : Env) (st : Store) (b : Body.t) :
  Outcome Number_of_string env st b (fst (submit Number_of_string env st b)) (snd (submit Number_of_string env st b)).
Proof.
  unfold submit.
  destruct (all_fields b) as [f|] eqn:Ef; [|now constructor].
  destruct (validation_error Number_of_string f) as [r|] eqn:Ev; [now econstructor; eauto|].
  cbv zeta. rewrite new_Applicant_stored.
  change (ApplicantData.email (applicantData Number_of_string env f))
    with (email (stored Number_of_string env f)).
  change (ApplicantData.position (applicantData Number_of_string env f))
    with (position (stored Number_of_string env f)).
  destruct (findOne_by_email_position _ _ st) as [x|] eqn:Ed;
    [now econstructor; eauto|].
  destruct (save st (stored Number_of_string env f)) as [e | st'] eqn:Es.
  - now eapply WriteFailed; eauto.
  - destruct (save_inr _ _ Es) as (-> & _ & _).
    cbn [fst snd anonymousId stored]. now apply Written.
Qed.

(** A 201 answer means the document was appended under a fresh
    identifier. *)
Lemma submit_created (env : Env) (st st' : Store) (b : Body.t)
      (id msg : string) :
  submit Number_of_string env st b = (Created id msg, st') ->
  exists f,
    all_fields b = Some f /\ validation_error Number_of_string f = None
    /\ findOne_by_email_position
         (email (stored Number_of_string env f)) (position (stored Number_of_string env f)) st = None
    /\ schema_valid (stored Number_of_string env f) = true
    /\ (forall y, In y st -> anonymousId y <> id)
    /\ id = generateAnonymousId env
    /\ st' = (st ++ [stored Number_of_string env f])%list.
Proof.
  intros H. pose proof (submit_outcome env st b) as O.
  rewrite H in O. cbn [fst snd] in O.
  inversion O as [ | f r Hf Hr | | f e Hf Hv Hd Hs He | f Hf Hv Hd Hs Hid Hst ].
  - apply validation_error_400 in Hr. discriminate Hr.
  - pose proof (submit_catch_500 e) as Hc. rewrite He in Hc. discriminate Hc.
  - exists f. destruct (save_inr _ _ Hs) as (_ & Hok & Hfresh).
    repeat split; auto.
Qed.

End SubmitFacts.

(** Conditions under which a submission is written. *)
Lemma submit_written (Number_of_string : string -> JsNum)
      (env : Env) (st : Store) (b : Body.t) (f : Fields) :
  all_fields b = Some f ->
  validation_error Number_of_string f = None ->
  findOne_by_email_position
    (email (stored Number_of_string env f))
    (position (stored Number_of_string env f)) st = None ->
  schema_valid (stored Number_of_string env f) = true ->
  existsb (has_id (generateAnonymousId env)) st = false ->
  submit Number_of_string env st b
  = (Created (generateAnonymousId env) "Application submitted successfully",
     (st ++ [stored Number_of_string env f])%list).
Proof.
  intros Hf Hv Hd Hok Hid.
  unfold submit. rewrite Hf, Hv. cbv zeta.
  rewrite new_Applicant_stored.
  change (ApplicantData.email (applicantData Number_of_string env f))
    with (email (stored Number_of_string env f)).
  change (ApplicantData.position (applicantData Number_of_string env f))
    with (position (stored Number_of_string env f)).
  rewrite Hd. unfold save. rewrite Hok.
  cbn [negb anonymousId stored]. now rewrite Hid.
Qed.

(** *** The (email, position) pair *)

Lemma findOneAndUpdate_keeps_pairs (id : string) (v : Status) (st : Store) :
  map email_position (snd (findOneAndUpdate id v st)) = map email_position st.
Proof.
  induction st as [|a r IH]; [reflexivity|].
  cbn [findOneAndUpdate]. destruct (has_id id a); [reflexivity|].
  destruct (findOneAndUpdate id v r) as [found r'].
  cbn [snd map] in *. now rewrite IH.
Qed.

Lemma updateStatus_keeps_pairs (st : Store) (id : string) (s : option string) :
  map email_position (snd (updateStatus st id s)) = map email_position st.
Proof.
  unfold updateStatus.
  destruct (if Js.falsy s then None else _) as [v|]; [|reflexivity].
  pose proof (findOneAndUpdate_keeps_pairs id v st) as H.
  destruct (findOneAndUpdate id v st) as [[a|] st']; [exact H | reflexivity].
Qed.

Lemma pair_absent (e p : string) (st : Store) :
  findOne_by_email_position e p st = None ->
  ~ In (e, p) (map email_position st).
Proof.
  intros H Hin. apply in_map_iff in Hin. destruct Hin as (a & Ha & Hin).
  apply (proj1 (StoreFacts.find_none _ _) H) in Hin.
  unfold email_position in Ha. injection Ha as <- <-.
  now rewrite !String.eqb_refl in Hin.
Qed.

Lemma submit_keeps_unique (Number_of_string : string -> JsNum)
      (env : Env) (st : Store) (b : Body.t) :
  unique_email_position st ->
  unique_email_position (snd (submit Number_of_string env st b)).
Proof.
  intros U. pose proof (submit_outcome Number_of_string env st b) as O.
  inversion O as [ | | | | f Hf Hv Hd Hs Hr Hst ]; try (now rewrite <- H); auto;
    try congruence.
  unfold unique_email_position. rewrite map_app. cbn [map].
  apply Permutation_NoDup with (l := email_position (stored Number_of_string env f)
                                     :: map email_position st).
  - apply Permutation_cons_append.
  - constructor; [|exact U]. now apply pair_absent.
Qed.

Lemma handle_keeps_unique (Number_of_string : string -> JsNum)
      (RegExp_i : string -> option (string -> bool))
      (nan_window : list Applicant -> Exn + list Applicant)
      (st : Store) (r : Request) :
  unique_email_position st ->
  unique_email_position (snd (handle Number_of_string RegExp_i nan_window st r)).
Proof.
  intros U. destruct r as [env b | q | id | id s]; cbn [handle snd]; auto.
  - now apply submit_keeps_unique.
  - unfold unique_email_position. now rewrite updateStatus_keeps_pairs.
Qed.

Lemma run_keeps_unique (Number_of_string : string -> JsNum)
      (RegExp_i : string -> option (string -> bool))
      (nan_window : list Applicant -> Exn + list Applicant)
      (rs : list Request) (st : Store) :
  unique_email_position st ->
  unique_email_position (run Number_of_string RegExp_i nan_window st rs).
Proof.
  revert st. induction rs as [|r rs IH]; intros st U; [exact U|].
  cbn [run fold_left]. apply IH. now apply handle_keeps_unique.
Qed.

(** A submission handled without interruption is its existence check
    followed at once by its write. *)
Lemma submit_in_two_steps (Number_of_string : string -> JsNum)
      (env : Env) (st : Store) (b : Body.t) :
  submit Number_of_string env st b
  = submit_resume st (submit_check Number_of_string env st b).
Proof.
  unfold submit, submit_check, submit_resume, submit_write.
  destruct (all_fields b) as [f|]; [|reflexivity].
  destruct (validation_error Number_of_string f) as [r|]; [reflexivity|].
  cbv zeta. now destruct (findOne_by_email_position _ _ st).
Qed.

Lemma submit_check_passes (Number_of_string : string -> JsNum)
      (env : Env) (st : Store) (b : Body.t) (f : Fields) :
  all_fields b = Some f ->
  validation_error Number_of_string f = None ->
  findOne_by_email_position
    (email (stored Number_of_string env f))
    (position (stored Number_of_string env f)) st = None ->
  submit_check Number_of_string env st b
  = inr (stored Number_of_string env f).
Proof.
  intros Hf Hv Hd. unfold submit_check. rewrite Hf, Hv. cbv zeta.
  rewrite new_Applicant_stored.
  change (ApplicantData.email (applicantData Number_of_string env f))
    with (email (stored Number_of_string env f)).
  change (ApplicantData.position (applicantData Number_of_string env f))
    with (position (stored Number_of_string env f)).
  now rewrite Hd.
Qed.

Lemma submit_write_fresh (st : Store) (a : Applicant) :
  schema_valid a = true ->
  (forall y, In y st -> anonymousId y <> anonymousId a) ->
  submit_write st a
  = (Created (anonymousId a) "Application submitted successfully",
     (st ++ [a])%list).
Proof.
  intros Hok Hfresh. unfold submit_write, save. rewrite Hok. cbn [negb].
  replace (existsb (has_id (anonymousId a)) st) with false; [reflexivity|].
  symmetry. apply StoreFacts.existsb_false.
  intros y Hy. apply StoreFacts.has_id_false. now apply Hfresh.
Qed.

(** C3.  Two valid submissions of one (email, position) pair that overlap,
    the second arriving while the first awaits its existence check, are
    both answered 201 and both stored: the second is not answered 409,
    and the store holds the pair twice, whatever it held before.  The
    check and the write are two separate calls on the store, and the only
    unique index is the one on anonymousId. *)
Theorem overlapping_duplicates_are_both_stored
        (Number_of_string : string -> JsNum)
        (env1 env2 : Env) (st : Store) (b1 b2 : Body.t) (f1 f2 : Fields)
        (Hfields1 : all_fields b1 = Some f1)
        (Hfields2 : all_fields b2 = Some f2)
        (Hvalid1 : validation_error Number_of_string f1 = None)
        (Hvalid2 : validation_error Number_of_string f2 = None)
        (Hsame : email_position (stored Number_of_string env2 f2)
                 = email_position (stored Number_of_string env1 f1))
        (Hnew : findOne_by_email_position
                  (email (stored Number_of_string env1 f1))
                  (position (stored Number_of_string env1 f1)) st = None)
        (Hschema1 : schema_valid (stored Number_of_string env1 f1) = true)
        (Hschema2 : schema_valid (stored Number_of_string env2 f2) = true)
        (Hfresh1 : forall y, In y st -> anonymousId y <> generateAnonymousId env1)
        (Hfresh2 : forall y, In y st -> anonymousId y <> generateAnonymousId env2)
        (Hids : generateAnonymousId env1 <> generateAnonymousId env2) :
  overlapped Number_of_string env1 b1 env2 b2 st
  = (Created (generateAnonymousId env1) "Application submitted successfully",
     Created (generateAnonymousId env2) "Application submitted successfully",
     (st ++ [stored Number_of_string env1 f1;
             stored Number_of_string env2 f2])%list)
  /\ ~ unique_email_position
        (snd (overlapped Number_of_string env1 b1 env2 b2 st))
  /\ submit Number_of_string env2
       (snd (submit Number_of_string env1 st b1)) b2
     = (Failure 409 "You have already applied for this position",
        (st ++ [stored Number_of_string env1 f1])%list).
Proof.
  assert (He : email (stored Number_of_string env2 f2)
               = email (stored Number_of_string env1 f1))
    by exact (f_equal fst Hsame).
  assert (Hp : position (stored Number_of_string env2 f2)
               = position (stored Number_of_string env1 f1))
    by exact (f_equal snd Hsame).
  assert (Hnew2 : findOne_by_email_position
                    (email (stored Number_of_string env2 f2))
                    (position (stored Number_of_string env2 f2)) st = None)
    by (rewrite He, Hp; exact Hnew).
  assert (Ho : overlapped Number_of_string env1 b1 env2 b2 st
               = (Created (generateAnonymousId env1)
                    "Application submitted successfully",
                  Created (generateAnonymousId env2)
                    "Application submitted successfully",
                  (st ++ [stored Number_of_string env1 f1;
                          stored Number_of_string env2 f2])%list)).
  { unfold overlapped.
    rewrite (@submit_check_passes Number_of_string env1 st b1 f1
               Hfields1 Hvalid1 Hnew).
    rewrite (@submit_check_passes Number_of_string env2 st b2 f2
               Hfields2 Hvalid2 Hnew2).
    cbn [submit_resume].
    rewrite (@submit_write_fresh st _ Hschema1) by exact Hfresh1.
    rewrite (@submit_write_fresh (st ++ [stored Number_of_string env1 f1])%list
               _ Hschema2).
    - cbn [anonymousId stored]. now rewrite <- app_assoc.
    - intros y Hy. apply in_app_or in Hy. destruct Hy as [Hy | [<- | []]].
      + now apply Hfresh2.
      + exact Hids. }
  split; [exact Ho|]. split.
  - rewrite Ho. cbn [snd]. unfold unique_email_position.
    rewrite map_app. cbn [map]. rewrite Hsame. intros U.
    apply NoDup_remove_2 with (l := map email_position st)
                              (l' := [email_position
                                        (stored Number_of_string env1 f1)]) in U.
    apply U. apply in_or_app. right. now left.
  - rewrite (@submit_in_two_steps Number_of_string env1 st b1).
    rewrite (@submit_check_passes Number_of_string env1 st b1 f1
               Hfields1 Hvalid1 Hnew).
    cbn [submit_resume].
    rewrite (@submit_write_fresh st _ Hschema1) by exact Hfresh1. cbn [snd].
    unfold submit. rewrite Hfields2, Hvalid2. cbv zeta.
    change (ApplicantData.email (applicantData Number_of_string env2 f2))
      with (email (stored Number_of_string env2 f2)).
    change (ApplicantData.position (applicantData Number_of_string env2 f2))
      with (position (stored Number_of_string env2 f2)).
    rewrite He, Hp.
    match goal with
    | |- context [findOne_by_email_position ?e ?p ?s] =>
        destruct (findOne_by_email_position e p s) as [x|] eqn:E
    end; [reflexivity|].
    exfalso.
    apply (proj1 (StoreFacts.find_none _ _))
      with (y := stored Number_of_string env1 f1) in E.
    + now rewrite !String.eqb_refl in E.
    + apply in_or_app. right. now left.
Qed.

Lemma overlapping_duplicates_are_both_stored_witness :
  overlapped Sample.Number_of_string Sample.env0 Sample.jane
    Sample.env1 Sample.jane_again []
  = (Created "APPM2R1BZ7K4FZYO" "Application submitted successfully",
     Created "APPM2R1C32G9K2J1" "Application submitted successfully",
     [Sample.jane_record; Sample.jane_again_record])
  /\ ~ unique_email_position [Sample.jane_record; Sample.jane_again_record].
Proof.
  destruct (@overlapping_duplicates_are_both_stored
              Sample.Number_of_string Sample.env0 Sample.env1 []
              Sample.jane Sample.jane_again
              (mkFields "Jane Doe" "jane@x.com" "+12025550123" "Engineer"
                 (Num 3) (OneString "Go,SQL") "BSc")
              (mkFields "J. Doe" "jane@x.com" "+442071234567" "Engineer"
                 (Num 12) (Array ["Rust"]) "PhD"))
    as (Ho & Hu & _);
    [reflexivity | reflexivity | reflexivity | reflexivity | reflexivity
    | reflexivity | reflexivity | reflexivity
    | intros y [] | intros y [] | discriminate | ].
  split; [exact Ho | exact Hu].
Defined.

(** X27.  When requests are handled one after the other, each to its end
    before the next begins: the pair (email, position) is unique across
    the stored records and every request keeps it so; when a submission
    has been accepted, a later valid submission with the same email and
    position is answered 409 and writes nothing, whatever its other
    fields. *)
Theorem duplicate_application_rejected
        (Number_of_string : string -> JsNum)
        (RegExp_i : string -> option (string -> bool))
        (nan_window : list Applicant -> Exn + list Applicant)
        (env1 env2 : Env) (st st1 : Store) (b1 b2 : Body.t) (f2 : Fields)
        (id msg : string)
        (Hfirst : submit Number_of_string env1 st b1 = (Created id msg, st1))
        (Hemail : Body.email b2 = Body.email b1)
        (Hposition : Body.position b2 = Body.position b1)
        (Hfields : all_fields b2 = Some f2)
        (Hvalid : validation_error Number_of_string f2 = None) :
  submit Number_of_string env2 st1 b2
  = (Failure 409 "You have already applied for this position", st1)
  /\ (forall s r,
         unique_email_position s ->
         unique_email_position (snd (handle Number_of_string RegExp_i nan_window s r)))
  /\ (forall rs, unique_email_position (run Number_of_string RegExp_i nan_window [] rs)).
Proof.
  split; [|split].
  - destruct (submit_created _ _ _ _ Hfirst)
      as (f1 & Hf1 & _ & _ & _ & _ & _ & ->).
    apply all_fields_some in Hf1. apply all_fields_some in Hfields as Hf2.
    destruct Hf1 as (_ & He1 & _ & Hp1 & _).
    destruct Hf2 as (_ & He2 & _ & Hp2 & _).
    assert (Ee : f_email f2 = f_email f1) by congruence.
    assert (Ep : f_position f2 = f_position f1) by congruence.
    unfold submit. rewrite Hfields, Hvalid. cbv zeta.
    cbn [applicantData ApplicantData.email ApplicantData.position].
    rewrite Ee, Ep.
    destruct (findOne_by_email_position _ _ _) as [x|] eqn:E; [reflexivity|].
    exfalso.
    apply (proj1 (StoreFacts.find_none _ _)) with (y := stored Number_of_string env1 f1) in E.
    + cbn [stored email position] in E. now rewrite !String.eqb_refl in E.
    + apply in_or_app. right. now left.
  - intros s r. apply handle_keeps_unique.
  - intros rs. apply run_keeps_unique. constructor.
Qed.

Lemma duplicate_application_rejected_witness :
  submit Sample.Number_of_string Sample.env0 [] Sample.jane
  = (Created "APPM2R1BZ7K4FZYO" "Application submitted successfully",
     [Sample.jane_record])
  /\ submit Sample.Number_of_string Sample.env1 [Sample.jane_record]
       Sample.jane_again
     = (Failure 409 "You have already applied for this position",
        [Sample.jane_record]).
Proof.
  split; [reflexivity|].
  refine (proj1 (@duplicate_application_rejected
                   Sample.Number_of_string Sample.RegExp_i Sample.nan_window
                   Sample.env0 Sample.env1 [] [Sample.jane_record]
                   Sample.jane Sample.jane_again
                   (mkFields "J. Doe" "jane@x.com" "+442071234567" "Engineer"
                      (Num 12) (Array ["Rust"]) "PhD")
                   "APPM2R1BZ7K4FZYO" "Application submitted successfully"
                   _ _ _ _ _)); reflexivity.
Defined.

(** *** The range of experience *)

(** With a valid email and phone, a numeric experience passes the range
    check exactly when it lies in [0, 50]. *)
Lemma experience_range_check (Number_of_string : string -> JsNum)
      (f : Fields) (q : Q) :
  validateEmail (f_email f) = true ->
  validatePhone (f_phone f) = true ->
  f_experience f = Num q ->
  (validation_error Number_of_string f = None <-> (0 <= q /\ q <= 50)%Q).
Proof.
  intros He Hp Hx. unfold validation_error. rewrite He, Hp, Hx.
  cbn [negb ToNumber num_lt num_gt]. unfold Qlt_bool.
  destruct (Qle_bool 0 q) eqn:E0; destruct (Qle_bool q 50) eqn:E50;
    cbn [negb orb]; split; try discriminate; try reflexivity.
  - intros _. split; now apply Qle_bool_iff.
  - intros [_ H]. apply Qle_bool_iff in H. congruence.
  - intros [H _]. apply Qle_bool_iff in H. congruence.
  - intros [H _]. apply Qle_bool_iff in H. congruence.
Qed.

(** C4 (the code departs from it).  A submission whose experience is the
    number 0 is answered 400 "All fields are required" and nothing is
    written: the presence test [!experience] holds for 0, so the range
    check that would accept it is never reached. *)
Theorem experience_zero_rejected
        (Number_of_string : string -> JsNum)
        (env : Env) (st : Store) (b : Body.t)
        (Hzero : Body.experience b = Some (Num 0)) :
  submit Number_of_string env st b
  = (Failure 400 "All fields are required", st).
Proof.
  unfold submit.
  replace (all_fields b) with (@None Fields); [reflexivity|].
  unfold all_fields. rewrite Hzero. cbn [falsy_scalar].
  replace (Qeq_bool 0 0) with true by reflexivity.
  now rewrite !orb_true_r.
Qed.

Lemma experience_zero_rejected_witness :
  submit Sample.Number_of_string Sample.env0 []
    (with_experience (Some (Num 0)) Sample.jane)
  = (Failure 400 "All fields are required", []).
Proof.
  apply (@experience_zero_rejected Sample.Number_of_string Sample.env0 []
           (with_experience (Some (Num 0)) Sample.jane)).
  reflexivity.
Defined.

(** The other three boundary values behave as the range says. *)
Lemma experience_boundaries :
  fst (submit Sample.Number_of_string Sample.env0 []
         (with_experience (Some (Num 50)) Sample.jane))
  = Created "APPM2R1BZ7K4FZYO" "Application submitted successfully"
  /\ fst (submit Sample.Number_of_string Sample.env0 []
            (with_experience (Some (Num (501 # 10))) Sample.jane))
     = Failure 400 "Experience must be between 0 and 50 years"
  /\ fst (submit Sample.Number_of_string Sample.env0 []
            (with_experience (Some (Num (-1))) Sample.jane))
     = Failure 400 "Experience must be between 0 and 50 years"
  /\ fst (submit Sample.Number_of_string Sample.env0 []
            (with_experience (Some (Str "0")) Sample.jane))
     = Created "APPM2R1BZ7K4FZYO" "Application submitted successfully".
Proof. repeat split; reflexivity. Qed.

(** *** A write refused by the unique index *)

(** C5 fails as stated: with Jane's record stored, Bob's submission for
    another position under a colliding identifier passes the existence
    check, the write is refused with code 11000, and the answer is 500,
    not 409; nothing is retried and nothing is written. *)
Lemma write_conflict_answered_500_not_409 :
  all_fields Sample.bob = Some Sample.bob_fields
  /\ validation_error Sample.Number_of_string Sample.bob_fields = None
  /\ findOne_by_email_position "bob@y.org" "Analyst" [Sample.jane_record] = None
  /\ save [Sample.jane_record]
       (new_Applicant (now_at_doc Sample.env_collision)
          (applicantData Sample.Number_of_string Sample.env_collision Sample.bob_fields))
     = inl (MongoServerError 11000)
  /\ submit Sample.Number_of_string Sample.env_collision [Sample.jane_record] Sample.bob
     = (Failure 500 "Duplicate application detected. Please try again.",
        [Sample.jane_record])
  /\ status_code
       (fst (submit Sample.Number_of_string Sample.env_collision
               [Sample.jane_record] Sample.bob)) <> 409.
Proof. repeat split; try reflexivity. discriminate. Qed.

(** C5, amended.  When the existence check finds nothing and the write is
    refused with a uniqueness violation (code 11000), which the unique
    index on anonymousId raises when the generated identifier is already
    stored, the submission is answered 500 with the message "Duplicate
    application detected. Please try again."; the store is unchanged and
    no second attempt is made. *)
Theorem write_conflict_answer
        (Number_of_string : string -> JsNum)
        (env : Env) (st : Store) (b : Body.t) (f : Fields)
        (Hfields : all_fields b = Some f)
        (Hvalid : validation_error Number_of_string f = None)
        (Hcheck : findOne_by_email_position
                    (Js.toLowerCase (Js.trim (f_email f)))
                    (Js.trim (f_position f)) st = None)
        (Hwrite : save st (new_Applicant (now_at_doc env)
                             (applicantData Number_of_string env f))
                  = inl (MongoServerError 11000)) :
  submit Number_of_string env st b
  = (Failure 500 "Duplicate application detected. Please try again.", st)
  /\ exists y, In y st /\ anonymousId y = generateAnonymousId env.
Proof.
  split.
  - unfold submit. rewrite Hfields, Hvalid. cbv zeta.
    cbn [applicantData ApplicantData.email ApplicantData.position] in *.
    rewrite Hcheck.
    cbn [applicantData] in Hwrite. now rewrite Hwrite.
  - unfold save in Hwrite.
    destruct (negb (schema_valid _)); [discriminate|].
    destruct (existsb _ st) eqn:E; [|discriminate].
    apply existsb_exists in E. destruct E as (y & Hy & Hid).
    exists y. split; [exact Hy|].
    now apply StoreFacts.has_id_true in Hid.
Qed.

Lemma write_conflict_answer_witness :
  submit Sample.Number_of_string Sample.env_collision [Sample.jane_record] Sample.bob
  = (Failure 500 "Duplicate application detected. Please try again.",
     [Sample.jane_record])
  /\ exists y, In y [Sample.jane_record]
               /\ anonymousId y = generateAnonymousId Sample.env_collision.
Proof.
  apply (@write_conflict_answer Sample.Number_of_string Sample.env_collision
           [Sample.jane_record] Sample.bob Sample.bob_fields); reflexivity.
Defined.

(** *** The name *)

(** C8 fails as stated: a submission whose name is the single character
    "A", otherwise that of the scenario, is answered 201 and its record is
    written. *)
Lemma one_character_name_is_persisted :
  String.length (Js.trim "A") = 1%nat
  /\ submit Sample.Number_of_string Sample.env0 []
       (with_name (Some "A") Sample.jane)
     = (Created "APPM2R1BZ7K4FZYO" "Application submitted successfully",
        [mkApplicant "APPM2R1BZ7K4FZYO" "A" "jane@x.com" "+12025550123"
           "Engineer" (Fin 3) ["Go"; "SQL"] "BSc" 1730000000001 pending])
  /\ status_code
       (fst (submit Sample.Number_of_string Sample.env0 []
               (with_name (Some "A") Sample.jane))) <> 400.
Proof. repeat split; try reflexivity. discriminate. Qed.

Lemma all_fields_with_name (b : Body.t) (f : Fields) (n : string) :
  all_fields b = Some f ->
  n <> EmptyString ->
  all_fields (with_name (Some n) b)
  = Some (mkFields n (f_email f) (f_phone f) (f_position f)
            (f_experience f) (f_skills f) (f_education f)).
Proof.
  intros Hf Hn. pose proof Hf as Hs. apply all_fields_some in Hs.
  destruct Hs as (_ & He & Hp & Hpos & Hx & Hsk & Hed & _).
  unfold all_fields in *.
  match type of Hf with
  | (if ?c then _ else _) = _ => destruct c eqn:E; [discriminate|]
  end.
  repeat (apply orb_false_iff in E; destruct E as [E ?]).
  destruct b as [n0 e p pos x sk ed];
    cbn [with_name Body.name Body.email Body.phone Body.position
         Body.experience Body.skills Body.education] in *.
  subst. destruct n as [|c r]; [congruence|].
  cbn [Js.falsy] in *. cbn [Js.falsy_string orb].
  repeat match goal with H : _ = false |- _ => rewrite H; clear H end.
  reflexivity.
Qed.

(** C8, amended.  The server rejects with 400 "All fields are required",
    writing nothing, a submission whose name is absent or empty, and it
    has no rule on the length of the name: when a submission is accepted,
    the same submission under any other name with a non-empty trim is
    accepted too, and the record holds the trimmed name.  The rule of 2 to
    100 characters after trimming is the client form's, which reports it
    on the field "name". *)
Theorem name_rules
        (Number_of_string : string -> JsNum)
        (env : Env) (st : Store) (b : Body.t) :
  (Js.falsy (Body.name b) = true ->
   submit Number_of_string env st b
   = (Failure 400 "All fields are required", st))
  /\ (forall id msg st' n,
         submit Number_of_string env st b = (Created id msg, st') ->
         Js.trim n <> EmptyString ->
         exists a,
           name a = Js.trim n
           /\ submit Number_of_string env st (with_name (Some n) b)
              = (Created id msg, (st ++ [a])%list))
  /\ (forall input,
         Form.name_error input = None
         <-> (2 <= String.length (Js.trim input) <= 100)%nat)
  /\ (forall input,
         Form.name_error input <> None ->
         exists message, Form.name_error input = Some ("name", message)).
Proof.
  split; [|split; [|split]].
  - intros Hn. unfold submit, all_fields. now rewrite Hn.
  - intros id msg st' n Hc Hn.
    destruct (submit_created _ _ _ _ Hc)
      as (f & Hf & Hv & Hd & Hok & Hfresh & -> & ->).
    assert (Hn0 : n <> EmptyString) by (intros ->; now apply Hn).
    set (f' := mkFields n (f_email f) (f_phone f) (f_position f)
                 (f_experience f) (f_skills f) (f_education f)).
    exists (stored Number_of_string env f'). split; [reflexivity|].
    replace msg with "Application submitted successfully".
    + apply submit_written.
      * now apply all_fields_with_name.
      * exact Hv.
      * exact Hd.
      * subst f'. unfold schema_valid in *.
        cbn [stored name anonymousId email phone position experience
             education f_name f_email f_phone f_position f_experience
             f_education] in *.
        apply JsFacts.falsy_string_false in Hn. rewrite Hn.
        repeat (apply andb_true_iff in Hok; destruct Hok as [Hok ?]).
        repeat (apply andb_true_iff; split); auto.
      * apply StoreFacts.existsb_false. intros y Hy.
        now apply StoreFacts.has_id_false, Hfresh.
    + pose proof (submit_outcome Number_of_string env st b) as O.
      rewrite Hc in O. cbn [fst snd] in O.
      inversion O as [ | ? r ? Hr | | ? e ? ? ? ? He | ]; try reflexivity.
      * apply validation_error_400 in Hr. discriminate Hr.
      * pose proof (submit_catch_500 e) as H5. rewrite He in H5. discriminate H5.
  - intros input. unfold Form.name_error.
    destruct (Nat.ltb_spec (String.length (Js.trim input)) 2);
      [split; [discriminate | lia]|].
    destruct (Nat.ltb_spec 100 (String.length (Js.trim input)));
      [split; [discriminate | lia]|].
    split; [lia | reflexivity].
  - intros input. unfold Form.name_error.
    destruct (Nat.ltb (String.length (Js.trim input)) 2); [eauto|].
    destruct (Nat.ltb 100 (String.length (Js.trim input))); [eauto|].
    intros H. now elim H.
Qed.

Lemma name_rules_witness :
  submit Sample.Number_of_string Sample.env0 []
    (with_name (Some "") Sample.jane)
  = (Failure 400 "All fields are required", [])
  /\ (exists a,
         name a = "A"
         /\ submit Sample.Number_of_string Sample.env0 []
              (with_name (Some "A") Sample.jane)
            = (Created "APPM2R1BZ7K4FZYO" "Application submitted successfully",
               [a]))
  /\ Form.name_error "A" = Some ("name", "Name must be at least 2 characters").
Proof.
  split; [|split].
  - apply (proj1 (@name_rules Sample.Number_of_string Sample.env0 []
                    (with_name (Some "") Sample.jane))).
    reflexivity.
  - destruct (proj1 (proj2 (@name_rules Sample.Number_of_string Sample.env0 []
                              Sample.jane))
                "APPM2R1BZ7K4FZYO" "Application submitted successfully"
                [Sample.jane_record] "A") as (a & Ha & Hs).
    + reflexivity.
    + discriminate.
    + exists a. split; [exact Ha | exact Hs].
  - reflexivity.
Defined.

(* ================================================================== *)
(** ** Pagination *)

Lemma ceil_div_covers (t l : Z) : 0 < l -> t <= ceil_div t l * l.
Proof.
  intros Hl. unfold ceil_div.
  pose proof (Z.mul_succ_div_gt (t + l - 1) l Hl). lia.
Qed.




(** C7.  A limit that is present and that [parseInt] reads as NaN, such
    as [limit=abc] or the empty [limit=], is not clamped into [1, 50] and
    the default 10 does not take its place: the effective limit is NaN,
    NaN reaches the store as skip and limit, and the request is answered
    500 or, when the store answers, with a limit and a totalPages that
    are NaN and hasNext false. *)
Theorem unreadable_limit_is_not_clamped
        (Number_of_string : string -> JsNum)
        (RegExp_i : string -> option (string -> bool))
        (nan_window : list Applicant -> Exn + list Applicant)
        (st : Store) (q : Query.t) (f : Filter) (s : string)
        (Hfilter : build_filter Number_of_string RegExp_i q = inr f)
        (Hcast : cast_fails f = false)
        (Hpresent : Query.limit q = Some s)
        (Hnan : ParseInt.parseInt s = IntNaN) :
  limitNum q = IntNaN
  /\ skip q = IntNaN
  /\ listApplicants Number_of_string RegExp_i nan_window st q
     = match nan_window (sort_desc (filter (matches f) st)) with
       | inl _ => Failure 500 "Internal server error"
       | inr applicants =>
           Listing (map (project anonymized_fields) applicants)
             {| page := pageNum q; limit := IntNaN;
                total := Z.of_nat (List.length (filter (matches f) st));
                totalPages := IntNaN; hasNext := false;
                hasPrev := int_lt (Int 1) (pageNum q) |}
       end
  /\ (forall data pg,
        listApplicants Number_of_string RegExp_i nan_window st q
        = Listing data pg ->
        limit pg = IntNaN /\ forall L, limit pg <> Int L).
Proof.
  assert (Hl : limitNum q = IntNaN).
  { unfold limitNum, int_param. now rewrite Hpresent, Hnan. }
  assert (Hs : skip q = IntNaN).
  { unfold skip. rewrite Hl. now destruct (pageNum q) as [|p|[|]]. }
  assert (Ha : listApplicants Number_of_string RegExp_i nan_window st q
               = match nan_window (sort_desc (filter (matches f) st)) with
                 | inl _ => Failure 500 "Internal server error"
                 | inr applicants =>
                     Listing (map (project anonymized_fields) applicants)
                       {| page := pageNum q; limit := IntNaN;
                          total := Z.of_nat (List.length (filter (matches f) st));
                          totalPages := IntNaN; hasNext := false;
                          hasPrev := int_lt (Int 1) (pageNum q) |}
                 end).
  { unfold listApplicants, find_window, countDocuments.
    rewrite Hfilter, Hcast, Hs, Hl. cbn [pages].
    destruct (nan_window _) as [e | applicants]; [reflexivity|].
    now destruct (pageNum q) as [|p|[|]]. }
  split; [exact Hl|]. split; [exact Hs|]. split; [exact Ha|].
  intros data pg Hr. rewrite Ha in Hr.
  destruct (nan_window _) as [e | applicants]; [discriminate|].
  injection Hr as _ <-. split; [reflexivity | discriminate].
Qed.

Lemma unreadable_limit_is_not_clamped_witness :
  ParseInt.parseInt "abc" = IntNaN
  /\ ParseInt.parseInt "" = IntNaN
  /\ limitNum (Sample.page_of "1" "abc") = IntNaN
  /\ listApplicants Sample.Number_of_string Sample.RegExp_i Sample.nan_window
       [Sample.jane_record] (Sample.page_of "1" "abc")
     = Failure 500 "Internal server error"
  /\ listApplicants Sample.Number_of_string Sample.RegExp_i
       (fun docs => inr docs) [Sample.jane_record] (Sample.page_of "1" "")
     = Listing [project anonymized_fields Sample.jane_record]
         (mkPagination (Int 1) IntNaN 1 IntNaN false false).
Proof.
  split; [reflexivity|]. split; [reflexivity|].
  destruct (@unreadable_limit_is_not_clamped Sample.Number_of_string
              Sample.RegExp_i Sample.nan_window [Sample.jane_record]
              (Sample.page_of "1" "abc") (mkFilter None None None None) "abc")
    as (Hl & _ & Ha & _); try reflexivity.
  split; [exact Hl|]. split; [rewrite Ha; reflexivity|].
  destruct (@unreadable_limit_is_not_clamped Sample.Number_of_string
              Sample.RegExp_i (fun docs => inr docs) [Sample.jane_record]
              (Sample.page_of "1" "") (mkFilter None None None None) "")
    as (_ & _ & Hb & _); [reflexivity .. | rewrite Hb; reflexivity].
Defined.

(* ================================================================== *)
(** ** Round trip *)




(* ================================================================== *)
(** ** Instances of the status update *)

Lemma updateStatus_frame_witness :
  exists l1 a a' l2,
    [Sample.jane_record] = (l1 ++ a :: l2)%list
    /\ anonymousId a = "APPM2R1BZ7K4FZYO"
    /\ (forall b, In b l1 -> anonymousId b <> "APPM2R1BZ7K4FZYO")
    /\ same_but_status a a' /\ status a' = contacted
    /\ snd (updateStatus [Sample.jane_record] "APPM2R1BZ7K4FZYO"
              (Some "contacted"))
       = (l1 ++ a' :: l2)%list
    /\ status_code (fst (updateStatus [Sample.jane_record] "APPM2R1BZ7K4FZYO"
                           (Some "contacted"))) = 200.
Proof.
  apply (@updateStatus_frame [Sample.jane_record] "APPM2R1BZ7K4FZYO" contacted).
  exists Sample.jane_record. split; [now left | reflexivity].
Defined.

Lemma updateStatus_invalid_status_first_witness :
  updateStatus [Sample.jane_record] "NO-SUCH-ID" (Some "hired")
  = (Failure 400
       "Valid status is required: pending, reviewed, contacted, rejected",
     [Sample.jane_record]).
Proof.
  apply (@updateStatus_invalid_status_first [Sample.jane_record] "NO-SUCH-ID"
           (Some "hired")).
  intros v. destruct v; discriminate.
Defined.

(* ================================================================== *)
(** * Further properties *)

(** ** The matcher decides the language of an expression *)

Module RegexFacts.
Import Regex.

Lemma append_nil_r (s : string) : s ++ EmptyString = s.
Proof. induction s as [|c r IH]; simpl; [reflexivity | now rewrite IH]. Qed.

Lemma append_assoc (a b c : string) : (a ++ b) ++ c = a ++ (b ++ c).
Proof. induction a as [|x r IH]; simpl; [reflexivity | now rewrite IH]. Qed.

Lemma append_empty (a b : string) :
  a ++ b = EmptyString -> a = EmptyString /\ b = EmptyString.
Proof. destruct a; simpl; [auto | discriminate]. Qed.

Lemma nullable_Matches (r : re) : nullable r = true <-> Matches r EmptyString.
Proof.
  split.
  - induction r as [| |p|a IHa b IHb|a IHa b IHb|a IHa]; simpl; intros H;
      try discriminate.
    + constructor.
    + apply andb_true_iff in H. destruct H as [Ha Hb].
      change EmptyString with (EmptyString ++ EmptyString).
      constructor; auto.
    + apply orb_true_iff in H. destruct H; [apply MAltL | apply MAltR]; auto.
    + constructor.
  - intros H. remember EmptyString as s eqn:Es.
    induction H as [|p c Hp|a b s1 s2 H1 IH1 H2 IH2|a b s H IH|a b s H IH
                    |a|a s1 s2 H1 IH1 H2 IH2]; simpl; try reflexivity.
    + discriminate.
    + apply append_empty in Es. destruct Es. now rewrite IH1, IH2.
    + now rewrite IH.
    + rewrite IH by assumption. apply orb_true_r.
Qed.

(** A non-empty match of a star starts with a non-empty match of its body. *)
Lemma Matches_Star_cons (a : re) (c : ascii) (s : string) :
  Matches (Star a) (String c s) ->
  exists s1 s2, s = s1 ++ s2 /\ Matches a (String c s1) /\ Matches (Star a) s2.
Proof.
  intros H. remember (Star a) as r eqn:Er. remember (String c s) as w eqn:Ew.
  revert c s Ew.
  induction H as [|p x Hp|a0 b s1 s2 H1 IH1 H2 IH2|a0 b s0 H IH|a0 b s0 H IH
                  |a0|a0 s1 s2 H1 IH1 H2 IH2]; intros c s Ew;
    try discriminate.
  injection Er as ->.
  destruct s1 as [|x t].
  - simpl in Ew. now apply IH2.
  - simpl in Ew. injection Ew as -> <-.
    exists t, s2. auto.
Qed.

Lemma deriv_Matches (c : ascii) (r : re) (s : string) :
  Matches (deriv c r) s <-> Matches r (String c s).
Proof.
  revert s. induction r as [| |p|a IHa b IHb|a IHa b IHb|a IHa]; intros s; simpl.
  - split; intros H; inversion H.
  - split; intros H; inversion H.
  - destruct (p c) eqn:E; split; intros H.
    + inversion H; subst. now constructor.
    + inversion H; subst. constructor.
    + inversion H.
    + inversion H; subst. congruence.
  - assert (Hcat : Matches (Cat (deriv c a) b) s
                   -> Matches (Cat a b) (String c s)).
    { intros H. inversion H as [| |? ? s1 s2 H1 H2| | | |]; subst.
      change (String c (s1 ++ s2)) with (String c s1 ++ s2).
      constructor; [now apply IHa | assumption]. }
    assert (Hback : Matches (Cat a b) (String c s)
                    -> Matches (Cat (deriv c a) b) s
                       \/ (Matches a EmptyString /\ Matches b (String c s))).
    { intros H. inversion H as [| |? ? s1 s2 H1 H2 E1 E2| | | |]; subst.
      destruct s1 as [|x t].
      - right. simpl in E2. subst. auto.
      - left. simpl in E2. injection E2 as -> <-.
        constructor; [now apply IHa | assumption]. }
    destruct (nullable a) eqn:En.
    + split; intros H.
      * inversion H; subst; [now apply Hcat|].
        change (String c s) with (EmptyString ++ String c s).
        constructor; [now apply nullable_Matches | now apply IHb].
      * destruct (Hback H) as [H1 | [_ H2]];
          [now apply MAltL | apply MAltR; now apply IHb].
    + split; [exact Hcat|]. intros H.
      destruct (Hback H) as [H1 | [H1 _]]; [exact H1|].
      apply nullable_Matches in H1. congruence.
  - split; intros H; inversion H; subst;
      solve [ apply MAltL; now apply IHa | apply MAltR; now apply IHb ].
  - split; intros H.
    + inversion H as [| |? ? s1 s2 H1 H2| | | |]; subst.
      change (String c (s1 ++ s2)) with (String c s1 ++ s2).
      constructor; [now apply IHa | assumption].
    + destruct (Matches_Star_cons H) as (s1 & s2 & -> & H1 & H2).
      constructor; [now apply IHa | assumption].
Qed.

Lemma Matches_Void (s : string) : ~ Matches Void s.
Proof. intros H. inversion H. Qed.

Lemma simp_Matches (r : re) (s : string) : Matches (simp r) s <-> Matches r s.
Proof.
  revert s. induction r as [| |p|a IHa b IHb|a IHa b IHb|a IHa]; intros s;
    try reflexivity.
  - (* Cat *)
    assert (E : Matches (Cat (simp a) (simp b)) s <-> Matches (Cat a b) s).
    { split; intros H; inversion H; subst; constructor;
        solve [now apply IHa | now apply IHb]. }
    rewrite <- E. clear E IHa IHb. cbn [simp].
    assert (V : forall x, Matches Void s <-> Matches (Cat Void x) s).
    { intros x. split; intros H; inversion H; subst.
      exfalso. eapply Matches_Void; eauto. }
    assert (V' : forall x, Matches Void s <-> Matches (Cat x Void) s).
    { intros x. split; intros H; inversion H; subst.
      exfalso. eapply Matches_Void; eauto. }
    assert (Ec : forall x, Matches x s <-> Matches (Cat Eps x) s).
    { intros x. split; intros H.
      - change s with (EmptyString ++ s). constructor; [constructor | exact H].
      - inversion H as [| |? ? s1 s2 H1 H2| | | |]; subst.
        inversion H1; subst. exact H2. }
    destruct (simp a); destruct (simp b);
      first [ reflexivity | apply V | apply V' | apply Ec ].
  - (* Alt *)
    assert (E : Matches (Alt (simp a) (simp b)) s <-> Matches (Alt a b) s).
    { split; intros H; inversion H; subst;
        solve [apply MAltL; now apply IHa | apply MAltR; now apply IHb]. }
    rewrite <- E. clear E IHa IHb. cbn [simp].
    assert (L : forall x, Matches x s <-> Matches (Alt Void x) s).
    { intros x. split; intros H; [now apply MAltR|].
      inversion H; subst; [exfalso; eapply Matches_Void; eauto | assumption]. }
    assert (R : forall x, Matches x s <-> Matches (Alt x Void) s).
    { intros x. split; intros H; [now apply MAltL|].
      inversion H; subst; [assumption | exfalso; eapply Matches_Void; eauto]. }
    destruct (simp a); destruct (simp b);
      first [ reflexivity | apply L | apply R ].
Qed.

(** [test] accepts exactly the strings of the expression. *)
Lemma test_Matches (r : re) (s : string) : test r s = true <-> Matches r s.
Proof.
  revert r. induction s as [|c k IH]; intros r; simpl.
  - apply nullable_Matches.
  - rewrite IH, simp_Matches. apply deriv_Matches.
Qed.

End RegexFacts.

(** ** What the two validators accept *)

Module ValidatorFacts.
Import Regex RegexFacts.

Lemma Matches_Cat_inv (a b : re) (s : string) :
  Matches (Cat a b) s <->
  exists s1 s2, s = s1 ++ s2 /\ Matches a s1 /\ Matches b s2.
Proof.
  split.
  - intros H. inversion H; subst. eauto.
  - intros (s1 & s2 & -> & H1 & H2). now constructor.
Qed.

Lemma Matches_Class_inv (p : ascii -> bool) (s : string) :
  Matches (Class p) s <-> exists c, s = String c EmptyString /\ p c = true.
Proof.
  split.
  - intros H. inversion H; subst. eauto.
  - intros (c & -> & H). now constructor.
Qed.

Lemma Matches_char (c : ascii) (s : string) :
  Matches (char c) s <-> s = String c EmptyString.
Proof.
  unfold char. rewrite Matches_Class_inv. split.
  - intros (x & -> & H). apply Ascii.eqb_eq in H. now subst.
  - intros ->. exists c. split; [reflexivity | apply Ascii.eqb_refl].
Qed.

Lemma Matches_Star_Class (p : ascii -> bool) (s : string) :
  Matches (Star (Class p)) s <-> all_chars p s = true.
Proof.
  induction s as [|c k IH]; simpl.
  - split; [reflexivity | constructor].
  - split.
    + intros H. destruct (Matches_Star_cons H) as (s1 & s2 & -> & H1 & H2).
      inversion H1; subst. simpl in *. apply andb_true_iff. split; [assumption|].
      now apply IH.
    + intros H. apply andb_true_iff in H. destruct H as [Hc Hk].
      change (String c k) with (String c EmptyString ++ k).
      constructor; [now constructor | now apply IH].
Qed.

Lemma Matches_Plus_Class (p : ascii -> bool) (s : string) :
  Matches (Plus (Class p)) s <-> s <> EmptyString /\ all_chars p s = true.
Proof.
  unfold Plus. rewrite Matches_Cat_inv. split.
  - intros (s1 & s2 & -> & H1 & H2). inversion H1; subst. simpl.
    split; [discriminate|]. apply andb_true_iff. split; [assumption|].
    now apply Matches_Star_Class.
  - intros [Hn H]. destruct s as [|c k]; [congruence|]. simpl in H.
    apply andb_true_iff in H. destruct H as [Hc Hk].
    exists (String c EmptyString), k. repeat split.
    + now constructor.
    + now apply Matches_Star_Class.
Qed.

Lemma Matches_UpTo_Class (p : ascii -> bool) (n : nat) (s : string) :
  Matches (UpTo n (Class p)) s <->
  all_chars p s = true /\ (String.length s <= n)%nat.
Proof.
  revert s. induction n as [|n IH]; intros s; simpl.
  - split.
    + intros H. inversion H; subst. simpl. auto.
    + intros [_ H]. destruct s; simpl in H; [constructor | lia].
  - split.
    + intros H. inversion H as [| | |? ? ? H1|? ? ? H1| |]; subst.
      * inversion H1; subst. simpl. split; [reflexivity | lia].
      * apply Matches_Cat_inv in H1. destruct H1 as (s1 & s2 & -> & Hc & Hr).
        inversion Hc; subst. apply IH in Hr. destruct Hr as [Ha Hl].
        simpl. rewrite Ha. split; [now apply andb_true_iff | lia].
    + intros [Ha Hl]. destruct s as [|c k].
      * apply MAltL. constructor.
      * simpl in Ha, Hl. apply andb_true_iff in Ha. destruct Ha as [Hc Hk].
        apply MAltR. change (String c k) with (String c EmptyString ++ k).
        constructor; [now constructor|]. apply IH. split; [assumption | lia].
Qed.

Lemma all_chars_app (p : ascii -> bool) (a b : string) :
  all_chars p (a ++ b) = (all_chars p a && all_chars p b)%bool.
Proof.
  induction a as [|c r IH]; simpl; [reflexivity|].
  now rewrite IH, andb_assoc.
Qed.

Lemma all_chars_weaken (p q : ascii -> bool) (s : string) :
  (forall c, p c = true -> q c = true) ->
  all_chars p s = true -> all_chars q s = true.
Proof.
  intros Hpq. induction s as [|c r IH]; simpl; [reflexivity|].
  intros H. apply andb_true_iff in H. destruct H as [Hc Hr].
  apply andb_true_iff. auto.
Qed.

(** The whole of [emailRegex]. *)
Lemma validateEmail_shape (e : string) :
  validateEmail e = true <->
  exists l d t,
    e = l ++ "@" ++ d ++ "." ++ t
    /\ l <> EmptyString /\ d <> EmptyString /\ t <> EmptyString
    /\ all_chars not_space_at l = true
    /\ all_chars not_space_at d = true
    /\ all_chars not_space_at t = true.
Proof.
  unfold validateEmail, emailRegex. rewrite test_Matches.
  rewrite Matches_Cat_inv. split.
  - intros (l & r1 & -> & Hl & H1).
    apply Matches_Cat_inv in H1. destruct H1 as (a & r2 & -> & Ha & H2).
    apply Matches_Cat_inv in H2. destruct H2 as (d & r3 & -> & Hd & H3).
    apply Matches_Cat_inv in H3. destruct H3 as (o & t & -> & Ho & Ht).
    apply Matches_char in Ha. apply Matches_char in Ho. subst a o.
    apply Matches_Plus_Class in Hl, Hd, Ht.
    exists l, d, t. intuition.
  - intros (l & d & t & -> & Hl & Hd & Ht & Al & Ad & At).
    exists l, ("@" ++ d ++ "." ++ t). split; [reflexivity|].
    split; [now apply Matches_Plus_Class|].
    apply Matches_Cat_inv. exists "@", (d ++ "." ++ t).
    split; [reflexivity|]. split; [now apply Matches_char|].
    apply Matches_Cat_inv. exists d, ("." ++ t).
    split; [reflexivity|]. split; [now apply Matches_Plus_Class|].
    apply Matches_Cat_inv. exists ".", t.
    split; [reflexivity|]. split; [now apply Matches_char|].
    now apply Matches_Plus_Class.
Qed.

(** The whole of [phoneRegex], on the text left once white space,
    hyphens and parentheses are removed. *)
Lemma validatePhone_shape (phone : string) :
  validatePhone phone = true <->
  exists sign c rest,
    Js.remove_chars phone_noise phone = sign ++ String c rest
    /\ (sign = EmptyString \/ sign = "+")
    /\ Js.between 49 57 c = true
    /\ all_chars Js.is_digit rest = true
    /\ (String.length rest <= 15)%nat.
Proof.
  unfold validatePhone, phoneRegex. rewrite test_Matches.
  rewrite Matches_Cat_inv. split.
  - intros (sg & r1 & -> & Hs & H1).
    apply Matches_Cat_inv in H1. destruct H1 as (a & rest & -> & Ha & Hr).
    apply Matches_Class_inv in Ha. destruct Ha as (c & -> & Hc).
    apply Matches_UpTo_Class in Hr. destruct Hr as [Hd Hn].
    exists sg, c, rest. repeat split; auto.
    unfold Opt in Hs. inversion Hs as [| | |? ? ? H|? ? ? H| |]; subst.
    + inversion H; subst. now left.
    + apply Matches_char in H. now right.
  - intros (sg & c & rest & -> & Hs & Hc & Hd & Hn).
    exists sg, (String c rest). split; [reflexivity|]. split.
    + unfold Opt. destruct Hs as [-> | ->];
        [apply MAltL; constructor | apply MAltR; now apply Matches_char].
    + apply Matches_Cat_inv. exists (String c EmptyString), rest.
      split; [reflexivity|]. split; [now constructor|].
      now apply Matches_UpTo_Class.
Qed.

End ValidatorFacts.

Module StringFacts.
Import Js.

Lemma smap_app (f : ascii -> ascii) (a b : string) :
  smap f (a ++ b) = smap f a ++ smap f b.
Proof. induction a as [|c r IH]; simpl; [reflexivity | now rewrite IH]. Qed.

Lemma all_chars_smap (p : ascii -> bool) (f : ascii -> ascii) (s : string) :
  (forall c, p c = true -> p (f c) = true) ->
  all_chars p s = true -> all_chars p (smap f s) = true.
Proof.
  intros Hf. induction s as [|c r IH]; simpl; [reflexivity|].
  intros H. apply andb_true_iff in H. destruct H as [Hc Hr].
  apply andb_true_iff. auto.
Qed.

Lemma all_chars_everywhere (p : ascii -> bool) (s : string) :
  (forall c, p c = true) -> all_chars p s = true.
Proof.
  intros Hp. induction s as [|c r IH]; simpl; [reflexivity|].
  now rewrite Hp, IH.
Qed.

Lemma not_space_at_lower (c : ascii) :
  not_space_at (lower_char c) = not_space_at c.
Proof. destruct c as [[] [] [] [] [] [] [] []]; reflexivity. Qed.

Lemma upper_char_not_lower (c : ascii) : negb (is_lower (upper_char c)) = true.
Proof. destruct c as [[] [] [] [] [] [] [] []]; reflexivity. Qed.

Lemma upper_char_idem (c : ascii) : upper_char (upper_char c) = upper_char c.
Proof. destruct c as [[] [] [] [] [] [] [] []]; reflexivity. Qed.

Lemma toUpperCase_idem (s : string) : toUpperCase (toUpperCase s) = toUpperCase s.
Proof.
  unfold toUpperCase.
  induction s as [|c r IH]; cbn [smap]; [reflexivity|].
  now rewrite upper_char_idem, IH.
Qed.

Lemma no_space_trimStart (s : string) :
  all_chars (fun c => negb (is_space c)) s = true -> trimStart s = s.
Proof.
  destruct s as [|c r]; simpl; [reflexivity|].
  intros H. apply andb_true_iff in H. destruct H as [Hc _].
  apply negb_true_iff in Hc. now rewrite Hc.
Qed.

Lemma no_space_trimEnd (s : string) :
  all_chars (fun c => negb (is_space c)) s = true -> trimEnd s = s.
Proof.
  induction s as [|c r IH]; [reflexivity|].
  cbn [all_chars]. intros H. apply andb_true_iff in H. destruct H as [Hc Hr].
  rewrite JsFacts.trimEnd_cons, (IH Hr).
  apply negb_true_iff in Hc. rewrite Hc. now destruct r.
Qed.

Lemma no_space_trim (s : string) :
  all_chars (fun c => negb (is_space c)) s = true -> trim s = s.
Proof.
  intros H. unfold trim. rewrite (no_space_trimEnd _ H).
  now apply no_space_trimStart.
Qed.

Lemma remove_chars_app (p : ascii -> bool) (a b : string) :
  remove_chars p (a ++ b) = remove_chars p a ++ remove_chars p b.
Proof.
  induction a as [|c r IH]; simpl; [reflexivity|].
  destruct (p c); simpl; now rewrite IH.
Qed.

Lemma remove_chars_idem (p : ascii -> bool) (s : string) :
  remove_chars p (remove_chars p s) = remove_chars p s.
Proof.
  induction s as [|c r IH]; simpl; [reflexivity|].
  destruct (p c) eqn:E; simpl; [exact IH|]. now rewrite E, IH.
Qed.

Lemma remove_chars_trimStart (p : ascii -> bool) (s : string) :
  (forall c, is_space c = true -> p c = true) ->
  remove_chars p (trimStart s) = remove_chars p s.
Proof.
  intros Hp. induction s as [|c r IH]; simpl; [reflexivity|].
  destruct (is_space c) eqn:E.
  - now rewrite (Hp _ E).
  - reflexivity.
Qed.

Lemma remove_chars_trimEnd (p : ascii -> bool) (s : string) :
  (forall c, is_space c = true -> p c = true) ->
  remove_chars p (trimEnd s) = remove_chars p s.
Proof.
  intros Hp. induction s as [|c r IH]; [reflexivity|].
  rewrite JsFacts.trimEnd_cons. cbn [remove_chars]. rewrite <- IH.
  destruct (trimEnd r) as [|d t] eqn:Et.
  - destruct (is_space c) eqn:E.
    + now rewrite (Hp _ E).
    + reflexivity.
  - reflexivity.
Qed.

Lemma remove_chars_trim (p : ascii -> bool) (s : string) :
  (forall c, is_space c = true -> p c = true) ->
  remove_chars p (trim s) = remove_chars p s.
Proof.
  intros Hp. unfold trim.
  now rewrite remove_chars_trimStart, remove_chars_trimEnd.
Qed.

Lemma space_is_noise (c : ascii) : is_space c = true -> phone_noise c = true.
Proof. unfold phone_noise. intros ->. reflexivity. Qed.

Lemma length_app (a b : string) :
  String.length (a ++ b) = (String.length a + String.length b)%nat.
Proof. induction a as [|c r IH]; simpl; [reflexivity | now rewrite IH]. Qed.

Lemma substring_length (n m : nat) (s : string) :
  (String.length (String.substring n m s) <= m)%nat.
Proof.
  revert n m. induction s as [|c r IH]; intros n m.
  - destruct n, m; simpl; lia.
  - destruct n as [|n].
    + destruct m as [|m]; simpl; [lia|]. specialize (IH 0%nat m). lia.
    + simpl. apply IH.
Qed.

End StringFacts.

(** X1.  [validateEmail] accepts exactly the strings of the form
    local@domain.rest in which the three parts are non-empty and hold
    neither white space nor another "@". *)
Theorem validateEmail_accepts_exactly (e : string) :
  validateEmail e = true <->
  exists l d t,
    e = l ++ "@" ++ d ++ "." ++ t
    /\ l <> EmptyString /\ d <> EmptyString /\ t <> EmptyString
    /\ all_chars not_space_at (l ++ d ++ t) = true.
Proof.
  rewrite ValidatorFacts.validateEmail_shape. split.
  - intros (l & d & t & E & Hl & Hd & Ht & Al & Ad & At).
    exists l, d, t. rewrite !ValidatorFacts.all_chars_app, Al, Ad, At. auto.
  - intros (l & d & t & E & Hl & Hd & Ht & A).
    rewrite !ValidatorFacts.all_chars_app in A.
    apply andb_true_iff in A. destruct A as [Al A].
    apply andb_true_iff in A. destruct A as [Ad At].
    exists l, d, t. auto 10.
Qed.

(** An accepted email holds no white space and stays accepted in lower
    case. *)
Lemma valid_email_facts (e : string)
      (Hvalid : validateEmail e = true) :
  all_chars (fun c => negb (Js.is_space c)) e = true
  /\ Js.trim e = e
  /\ validateEmail (Js.toLowerCase (Js.trim e)) = true.
Proof.
  apply ValidatorFacts.validateEmail_shape in Hvalid as S.
  destruct S as (l & d & t & -> & Hl & Hd & Ht & Al & Ad & At).
  assert (W : forall c, not_space_at c = true -> negb (Js.is_space c) = true).
  { intros c. unfold not_space_at.
    destruct (Js.is_space c); simpl; [discriminate | reflexivity]. }
  assert (Hs : all_chars (fun c => negb (Js.is_space c))
                 (l ++ "@" ++ d ++ "." ++ t) = true).
  { rewrite !ValidatorFacts.all_chars_app.
    rewrite (ValidatorFacts.all_chars_weaken _ _ _ W Al),
      (ValidatorFacts.all_chars_weaken _ _ _ W Ad),
      (ValidatorFacts.all_chars_weaken _ _ _ W At).
    reflexivity. }
  split; [exact Hs|].
  rewrite (StringFacts.no_space_trim _ Hs). split; [reflexivity|].
  apply ValidatorFacts.validateEmail_shape.
  assert (L : forall s, s <> EmptyString -> Js.toLowerCase s <> EmptyString).
  { intros [|c r] H; [congruence | discriminate]. }
  assert (A : forall s, all_chars not_space_at s = true ->
                        all_chars not_space_at (Js.toLowerCase s) = true).
  { intros s. apply StringFacts.all_chars_smap.
    intros c. now rewrite StringFacts.not_space_at_lower. }
  exists (Js.toLowerCase l), (Js.toLowerCase d), (Js.toLowerCase t).
  split.
  - unfold Js.toLowerCase. now rewrite !StringFacts.smap_app.
  - auto 10.
Qed.

(** X2.  An email that [validateEmail] accepts holds no white space, so
    trimming leaves it as it is, and its lower-case form is accepted too:
    what the submission stores as email is again a valid email, fixed by
    both normalisations. *)
Theorem valid_email_normalised (e : string)
        (Hvalid : validateEmail e = true) :
  all_chars (fun c => negb (Js.is_space c)) e = true
  /\ Js.trim e = e
  /\ validateEmail (Js.toLowerCase (Js.trim e)) = true
  /\ Js.trim (Js.toLowerCase (Js.trim e)) = Js.toLowerCase (Js.trim e)
  /\ Js.toLowerCase (Js.toLowerCase (Js.trim e)) = Js.toLowerCase (Js.trim e).
Proof.
  destruct (valid_email_facts _ Hvalid) as (Hs & Ht & Hl).
  split; [exact Hs|]. split; [exact Ht|]. split; [exact Hl|]. split.
  - now rewrite JsFacts.trim_lower, JsFacts.trim_idem.
  - apply JsFacts.toLowerCase_idem.
Qed.

Lemma valid_email_normalised_witness :
  validateEmail "Jane@X.com" = true
  /\ Js.trim "Jane@X.com" = "Jane@X.com"
  /\ validateEmail (Js.toLowerCase (Js.trim "Jane@X.com")) = true.
Proof.
  split; [reflexivity|].
  destruct (@valid_email_normalised "Jane@X.com") as (_ & Ht & Hl & _);
    [reflexivity|].
  split; [exact Ht | exact Hl].
Defined.

(** X3.  [validatePhone] accepts exactly the strings that, once white
    space, hyphens and parentheses are removed, are an optional "+"
    followed by a digit from 1 to 9 and at most fifteen more digits. *)
Theorem validatePhone_accepts_exactly (phone : string) :
  validatePhone phone = true <->
  exists sign c rest,
    Js.remove_chars phone_noise phone = sign ++ String c rest
    /\ (sign = EmptyString \/ sign = "+")
    /\ Js.between 49 57 c = true
    /\ all_chars Js.is_digit rest = true
    /\ (String.length rest <= 15)%nat.
Proof.
  split.
  - intros H. now apply ValidatorFacts.validatePhone_shape.
  - intros H. now apply ValidatorFacts.validatePhone_shape.
Qed.

(** X4.  White space, hyphens and parentheses do not count in a phone
    number: inserting one anywhere, or trimming the number, does not
    change what [validatePhone] answers; and an accepted number has at
    most seventeen characters besides them. *)
Theorem validatePhone_ignores_noise (a b : string) (c : ascii)
        (Hnoise : phone_noise c = true) :
  validatePhone (a ++ String c b) = validatePhone (a ++ b)
  /\ validatePhone (Js.trim (a ++ b)) = validatePhone (a ++ b)
  /\ (validatePhone (a ++ b) = true ->
      (1 <= String.length (Js.remove_chars phone_noise (a ++ b)) <= 17)%nat).
Proof.
  unfold validatePhone. split; [|split].
  - rewrite !StringFacts.remove_chars_app. cbn [Js.remove_chars].
    now rewrite Hnoise.
  - now rewrite (StringFacts.remove_chars_trim _ _ StringFacts.space_is_noise).
  - intros H. apply ValidatorFacts.validatePhone_shape in H.
    destruct H as (sg & d & rest & E & Hs & _ & _ & Hn).
    rewrite E, StringFacts.length_app. cbn [String.length].
    destruct Hs as [-> | ->]; cbn [String.length]; lia.
Qed.

Lemma validatePhone_ignores_noise_witness :
  validatePhone ("+1" ++ String " " "2025550123") = validatePhone "+12025550123"
  /\ validatePhone "+12025550123" = true.
Proof.
  split; [|reflexivity].
  apply (@validatePhone_ignores_noise "+1" "2025550123" " "). reflexivity.
Defined.

Lemma go_nonempty (k : nat) (n : N) (acc : string) :
  acc <> EmptyString -> Base36.go k n acc <> EmptyString.
Proof.
  revert n acc. induction k as [|k IH]; intros n acc Hacc; cbn [Base36.go].
  - exact Hacc.
  - destruct (n <? 36)%N; [discriminate | apply IH; discriminate].
Qed.

Lemma toString36_nonempty (n : N) : Base36.toString36 n <> EmptyString.
Proof.
  unfold Base36.toString36. cbn [Base36.go].
  destruct (n <? 36)%N; [discriminate | apply go_nonempty; discriminate].
Qed.

Lemma smap_length (f : ascii -> ascii) (s : string) :
  String.length (Js.smap f s) = String.length s.
Proof. induction s as [|c r IH]; simpl; [reflexivity | now rewrite IH]. Qed.

Lemma all_chars_smap_image (p : ascii -> bool) (f : ascii -> ascii) (s : string) :
  (forall c, p (f c) = true) -> all_chars p (Js.smap f s) = true.
Proof.
  intros Hf. induction s as [|c r IH]; simpl; [reflexivity|].
  now rewrite Hf, IH.
Qed.

Lemma smap_get (f : ascii -> ascii) (s : string) (i : nat) :
  String.get i (Js.smap f s) = option_map f (String.get i s).
Proof.
  revert i. induction s as [|c r IH]; intros i; [reflexivity|].
  destruct i as [|i]; [reflexivity|]. cbn. apply IH.
Qed.

Lemma substring_get (n m i : nat) (s : string) :
  (i < m)%nat ->
  String.get i (String.substring n m s) = String.get (n + i) s.
Proof.
  revert n m i. induction s as [|c r IH]; intros n m i Hi.
  - destruct n, m; reflexivity.
  - destruct n as [|n].
    + destruct m as [|m]; [lia|]. cbn [String.substring].
      destruct i as [|i]; [reflexivity|].
      cbn [String.get Nat.add]. rewrite (IH 0%nat m i) by lia. reflexivity.
    + cbn [String.substring Nat.add String.get]. now apply IH.
Qed.

Lemma substring_length_exact (n m : nat) (s : string) :
  String.length (String.substring n m s)
  = Nat.min m (String.length s - n).
Proof.
  revert n m. induction s as [|c r IH]; intros n m.
  - destruct n, m; reflexivity.
  - destruct n as [|n].
    + destruct m as [|m]; [reflexivity|]. cbn [String.substring String.length].
      rewrite IH. now rewrite Nat.sub_0_r.
    + cbn [String.substring String.length]. now rewrite IH.
Qed.

(** X5.  An identifier is "APP", then the base-36 digits of the
    millisecond clock in upper case, at least one, then the characters of
    the random text from the third to the seventh in upper case: five of
    them, or as many as the text has after its first two.  It holds no
    lower-case letter (upper-casing it again changes nothing) and is not
    empty. *)
Theorem generateAnonymousId_shape (env : Env) :
  generateAnonymousId env
  = "APP" ++ Js.toUpperCase (Base36.toString36 (now_at_id env))
    ++ Js.toUpperCase (Js.substr 2 5 (random36 env))
  /\ Js.toUpperCase (Base36.toString36 (now_at_id env)) <> EmptyString
  /\ String.length (Js.toUpperCase (Js.substr 2 5 (random36 env)))
     = Nat.min 5 (String.length (random36 env) - 2)
  /\ (forall i, (i < 5)%nat ->
        String.get i (Js.toUpperCase (Js.substr 2 5 (random36 env)))
        = option_map Js.upper_char (String.get (2 + i) (random36 env)))
  /\ all_chars (fun c => negb (is_lower c)) (generateAnonymousId env) = true
  /\ Js.toUpperCase (generateAnonymousId env) = generateAnonymousId env
  /\ Js.falsy_string (generateAnonymousId env) = false.
Proof.
  unfold generateAnonymousId. cbv zeta.
  split; [|split; [|split; [|split; [|split; [|split]]]]].
  - unfold Js.toUpperCase, Js.substr. now rewrite !StringFacts.smap_app.
  - pose proof (toString36_nonempty (now_at_id env)) as H.
    destruct (Base36.toString36 (now_at_id env)); [congruence | discriminate].
  - unfold Js.toUpperCase, Js.substr. rewrite smap_length.
    apply substring_length_exact.
  - intros i Hi. unfold Js.toUpperCase, Js.substr. rewrite smap_get.
    f_equal. now apply substring_get.
  - apply all_chars_smap_image. apply StringFacts.upper_char_not_lower.
  - apply StringFacts.toUpperCase_idem.
  - reflexivity.
Qed.

(** ** Submission: outcomes and invariants *)

Lemma findOneAndUpdate_identity (id : string) (v : Status) (st : Store) :
  map identity (snd (findOneAndUpdate id v st)) = map identity st.
Proof.
  induction st as [|a r IH]; [reflexivity|].
  cbn [findOneAndUpdate]. destruct (has_id id a); [reflexivity|].
  destruct (findOneAndUpdate id v r) as [found r'].
  cbn [snd map] in *. now rewrite IH.
Qed.

Lemma updateStatus_identity (st : Store) (id : string) (s : option string) :
  map identity (snd (updateStatus st id s)) = map identity st.
Proof.
  unfold updateStatus.
  destruct (if Js.falsy s then None else _) as [v|]; [|reflexivity].
  pose proof (findOneAndUpdate_identity id v st) as H.
  destruct (findOneAndUpdate id v st) as [[a|] st']; [exact H | reflexivity].
Qed.

Lemma ids_of_identity (st : Store) :
  map anonymousId st
  = map (fun t => fst (fst (fst (fst (fst (fst (fst (fst t)))))))) (map identity st).
Proof. rewrite map_map. apply map_ext. reflexivity. Qed.

Lemma updateStatus_ids (st : Store) (id : string) (s : option string) :
  map anonymousId (snd (updateStatus st id s)) = map anonymousId st.
Proof. now rewrite !ids_of_identity, updateStatus_identity. Qed.

(** X6.  A submission either is answered 201 and appends one record, with
    the identifier of the answer, the status pending and the date of the
    clock, under an identifier no stored record had; or is answered 400,
    409 or 500 and leaves the store exactly as it was. *)
Theorem submit_writes_only_on_201
        (Number_of_string : string -> JsNum)
        (env : Env) (st : Store) (b : Body.t) :
  (exists id msg a,
      submit Number_of_string env st b = (Created id msg, (st ++ [a])%list)
      /\ anonymousId a = id /\ status a = pending
      /\ submittedAt a = now_at_doc env
      /\ ~ In id (map anonymousId st))
  \/ (snd (submit Number_of_string env st b) = st
      /\ In (status_code (fst (submit Number_of_string env st b)))
            [400; 409; 500]).
Proof.
  pose proof (submit_outcome Number_of_string env st b) as O.
  destruct (submit Number_of_string env st b) as [r st'] eqn:E.
  cbn [fst snd] in *.
  inversion O as [Hf Hr Hst | f r0 Hf Hv Hr Hst | f x Hf Hv Hd Hr Hst
                  | f e Hf Hv Hd Hs Hr Hst | f Hf Hv Hd Hs Hr Hst ]; subst.
  - right. split; [reflexivity|]. cbn. auto.
  - right. split; [reflexivity|].
    rewrite (validation_error_400 _ _ Hv). cbn. auto.
  - right. split; [reflexivity|]. cbn. auto.
  - right. split; [reflexivity|]. rewrite submit_catch_500. cbn. auto.
  - left. exists (generateAnonymousId env), "Application submitted successfully",
      (stored Number_of_string env f).
    destruct (save_inr _ _ Hs) as (_ & _ & Hfresh).
    repeat split.
    intros Hin. apply in_map_iff in Hin. destruct Hin as (y & Hy & Hin).
    now apply (Hfresh y Hin).
Qed.

Lemma submit_appends (Number_of_string : string -> JsNum)
      (env : Env) (st : Store) (b : Body.t) :
  snd (submit Number_of_string env st b) = st
  \/ exists f,
      all_fields b = Some f
      /\ validation_error Number_of_string f = None
      /\ schema_valid (stored Number_of_string env f) = true
      /\ (forall y, In y st -> anonymousId y <> generateAnonymousId env)
      /\ snd (submit Number_of_string env st b)
         = (st ++ [stored Number_of_string env f])%list.
Proof.
  pose proof (submit_outcome Number_of_string env st b) as O.
  destruct (submit Number_of_string env st b) as [r st'] eqn:E.
  cbn [fst snd] in *.
  inversion O as [Hf Hr Hst | f r0 Hf Hv Hr Hst | f x Hf Hv Hd Hr Hst
                  | f e Hf Hv Hd Hs Hr Hst | f Hf Hv Hd Hs Hr Hst ]; subst;
    try (now left).
  right. exists f. destruct (save_inr _ _ Hs) as (_ & Hok & Hfresh).
  repeat split; auto.
Qed.

Lemma handle_unique_ids (Number_of_string : string -> JsNum)
      (RegExp_i : string -> option (string -> bool))
      (nan_window : list Applicant -> Exn + list Applicant)
      (st : Store) (r : Request) :
  unique_ids st ->
  unique_ids (snd (handle Number_of_string RegExp_i nan_window st r)).
Proof.
  intros U. destruct r as [env b | q | id | id s]; cbn [handle snd]; auto.
  - destruct (submit_appends Number_of_string env st b)
      as [-> | (f & _ & _ & _ & Hfresh & ->)]; [exact U|].
    unfold unique_ids. rewrite map_app. cbn [map].
    apply Permutation_NoDup
      with (l := anonymousId (stored Number_of_string env f)
                 :: map anonymousId st).
    + apply Permutation_cons_append.
    + constructor; [|exact U].
      intros Hin. apply in_map_iff in Hin. destruct Hin as (y & Hy & Hin).
      now apply (Hfresh y Hin).
  - unfold unique_ids. now rewrite updateStatus_ids.
Qed.

(** X7.  No two stored records ever share an identifier: every request
    keeps the identifiers of the store distinct, so they are distinct in
    every store reached from one where they were: an identifier names at
    most one record. *)
Theorem identifiers_stay_unique
        (Number_of_string : string -> JsNum)
        (RegExp_i : string -> option (string -> bool))
        (nan_window : list Applicant -> Exn + list Applicant)
        (st : Store) (rs : list Request)
        (Hunique : unique_ids st) :
  unique_ids (run Number_of_string RegExp_i nan_window st rs)
  /\ forall a b,
      In a (run Number_of_string RegExp_i nan_window st rs) ->
      In b (run Number_of_string RegExp_i nan_window st rs) ->
      anonymousId a = anonymousId b -> a = b.
Proof.
  assert (U : unique_ids (run Number_of_string RegExp_i nan_window st rs)).
  { revert st Hunique. induction rs as [|r rs IH]; intros st U; [exact U|].
    cbn [run fold_left]. apply IH. now apply handle_unique_ids. }
  split; [exact U|].
  revert U. generalize (run Number_of_string RegExp_i nan_window st rs).
  clear. unfold unique_ids. intros l.
  induction l as [|x l IH]; intros U a b Ha Hb E; [destruct Ha|].
  cbn [map] in U. inversion U as [|? ? Hx Hl]; subst.
  destruct Ha as [<- | Ha], Hb as [<- | Hb].
  - reflexivity.
  - exfalso. apply Hx. rewrite E. now apply in_map.
  - exfalso. apply Hx. rewrite <- E. now apply in_map.
  - now apply IH.
Qed.

Lemma identifiers_stay_unique_witness :
  unique_ids
    (run Sample.Number_of_string Sample.RegExp_i Sample.nan_window []
       [ PostApplicant Sample.env0 Sample.jane;
         PostApplicant Sample.env_collision Sample.bob;
         PostApplicant Sample.env1 Sample.bob ]).
Proof.
  apply (@identifiers_stay_unique Sample.Number_of_string Sample.RegExp_i
           Sample.nan_window []).
  constructor.
Defined.

(** X8.  No request deletes, reorders or rewrites a record: the store
    afterwards is the records it held, in the same order and the same
    but for their status, followed by at most one new record, whose
    status is pending. *)
Theorem store_is_append_only
        (Number_of_string : string -> JsNum)
        (RegExp_i : string -> option (string -> bool))
        (nan_window : list Applicant -> Exn + list Applicant)
        (st : Store) (r : Request) :
  exists kept added,
    snd (handle Number_of_string RegExp_i nan_window st r)
    = (kept ++ added)%list
    /\ map identity kept = map identity st
    /\ (List.length added <= 1)%nat
    /\ Forall (fun a => status a = pending) added.
Proof.
  destruct r as [env b | q | id | id s]; cbn [handle snd].
  - destruct (submit_appends Number_of_string env st b)
      as [-> | (f & _ & _ & _ & _ & ->)].
    + exists st, []. rewrite app_nil_r.
      repeat split; [cbn; lia | constructor].
    + exists st, [stored Number_of_string env f].
      repeat split; [cbn; lia | repeat constructor].
  - exists st, []. rewrite app_nil_r. repeat split; [cbn; lia | constructor].
  - exists st, []. rewrite app_nil_r. repeat split; [cbn; lia | constructor].
  - exists (snd (updateStatus st id s)), []. rewrite app_nil_r.
    split; [reflexivity|]. split; [apply updateStatus_identity|].
    split; [cbn; lia | constructor].
Qed.

Lemma experience_in_range (x : JsNum) :
  num_le (Fin 0) x = true ->
  (num_lt x (Fin 0) || num_gt x (Fin 50))%bool = false ->
  exists q, x = Fin q /\ (0 <= q /\ q <= 50)%Q.
Proof.
  intros Hlo Hr. apply orb_false_iff in Hr. destruct Hr as [_ Hhi].
  destruct x as [| |q|]; cbn in *; try discriminate.
  exists q. split; [reflexivity|]. unfold Qlt_bool in Hhi.
  apply negb_false_iff in Hhi. split; now apply Qle_bool_iff.
Qed.

Lemma validation_passed (Number_of_string : string -> JsNum) (f : Fields) :
  validation_error Number_of_string f = None ->
  validateEmail (f_email f) = true
  /\ validatePhone (f_phone f) = true
  /\ (num_lt (ToNumber Number_of_string (f_experience f)) (Fin 0)
      || num_gt (ToNumber Number_of_string (f_experience f)) (Fin 50))%bool
     = false.
Proof.
  unfold validation_error.
  destruct (validateEmail (f_email f)); [|discriminate].
  destruct (validatePhone (f_phone f)); [|discriminate].
  cbn [negb].
  destruct (num_lt _ _ || num_gt _ _)%bool; [discriminate | auto].
Qed.

Lemma stored_well_formed (Number_of_string : string -> JsNum)
      (env : Env) (f : Fields) :
  validation_error Number_of_string f = None ->
  schema_valid (stored Number_of_string env f) = true ->
  well_formed (stored Number_of_string env f).
Proof.
  intros Hv Hok. destruct (validation_passed _ _ Hv) as (He & Hp & Hx).
  unfold schema_valid in Hok.
  cbn [stored anonymousId name email phone position experience education]
    in Hok.
  repeat (apply andb_true_iff in Hok; destruct Hok as [Hok ?]).
  repeat match goal with
         | H : negb _ = true |- _ => apply negb_true_iff in H
         end.
  destruct (valid_email_facts _ He) as (_ & Ht & Hl).
  unfold well_formed.
  cbn [stored anonymousId name email phone position experience education
       skills].
  repeat split; try assumption; try apply JsFacts.trim_idem.
  - apply JsFacts.toLowerCase_idem.
  - now rewrite JsFacts.trim_lower, JsFacts.trim_idem.
  - unfold validatePhone.
    now rewrite (StringFacts.remove_chars_trim _ _ StringFacts.space_is_noise).
  - now apply experience_in_range.
  - apply Forall_forall. intros s Hs. apply in_map_iff in Hs.
    destruct Hs as (x & <- & _). apply JsFacts.trim_idem.
Qed.

Lemma set_status_well_formed (v : Status) (a : Applicant) :
  well_formed a -> well_formed (set_status v a).
Proof. intros H. exact H. Qed.

Lemma findOneAndUpdate_well_formed (id : string) (v : Status) (st : Store) :
  Forall well_formed st ->
  Forall well_formed (snd (findOneAndUpdate id v st)).
Proof.
  induction st as [|a r IH]; intros H; [constructor|].
  inversion H as [|? ? Ha Hr]; subst.
  cbn [findOneAndUpdate]. destruct (has_id id a).
  - cbn [snd]. constructor; [now apply set_status_well_formed | assumption].
  - specialize (IH Hr).
    destruct (findOneAndUpdate id v r) as [found r'].
    cbn [snd] in *. now constructor.
Qed.

Lemma handle_well_formed (Number_of_string : string -> JsNum)
      (RegExp_i : string -> option (string -> bool))
      (nan_window : list Applicant -> Exn + list Applicant)
      (st : Store) (r : Request) :
  Forall well_formed st ->
  Forall well_formed (snd (handle Number_of_string RegExp_i nan_window st r)).
Proof.
  intros W. destruct r as [env b | q | id | id s]; cbn [handle snd]; auto.
  - destruct (submit_appends Number_of_string env st b)
      as [-> | (f & _ & Hv & Hok & _ & ->)]; [exact W|].
    apply Forall_app. split; [exact W|].
    constructor; [|constructor]. now apply stored_well_formed.
  - unfold updateStatus.
    destruct (if Js.falsy s then None else _) as [v|]; [|exact W].
    pose proof (findOneAndUpdate_well_formed id v W) as H.
    destruct (findOneAndUpdate id v st) as [[a|] st']; [exact H | exact W].
Qed.

(** X9.  Every record of a store built by requests from the empty store
    is well formed: its name, position and education are non-empty and
    trimmed, its email is a valid email in lower case, its phone a valid
    phone, its experience a number between 0 and 50, and its skills are
    trimmed. *)
Theorem stored_records_are_well_formed
        (Number_of_string : string -> JsNum)
        (RegExp_i : string -> option (string -> bool))
        (nan_window : list Applicant -> Exn + list Applicant)
        (rs : list Request) :
  Forall well_formed (run Number_of_string RegExp_i nan_window [] rs).
Proof.
  assert (G : forall st, Forall well_formed st ->
                         Forall well_formed
                           (run Number_of_string RegExp_i nan_window st rs)).
  { induction rs as [|r rs IH]; intros st W; [exact W|].
    cbn [run fold_left]. apply IH. now apply handle_well_formed. }
  apply G. constructor.
Qed.

(** ** Submissions the server answers 500 *)

(** X10.  A name, position or education made of white space only passes
    the presence test and the format checks, and is refused by the
    schema when the record is saved: the answer is 500 "Internal server
    error", not 400, and nothing is written. *)
Theorem blank_field_answered_500
        (Number_of_string : string -> JsNum)
        (env : Env) (st : Store) (b : Body.t) (f : Fields)
        (Hfields : all_fields b = Some f)
        (Hvalid : validation_error Number_of_string f = None)
        (Hnew : findOne_by_email_position
                  (Js.toLowerCase (Js.trim (f_email f)))
                  (Js.trim (f_position f)) st = None)
        (Hblank : Js.trim (f_name f) = EmptyString
                  \/ Js.trim (f_position f) = EmptyString
                  \/ Js.trim (f_education f) = EmptyString) :
  submit Number_of_string env st b
  = (Failure 500 "Internal server error", st).
Proof.
  unfold submit. rewrite Hfields, Hvalid. cbv zeta.
  rewrite new_Applicant_stored.
  cbn [applicantData ApplicantData.email ApplicantData.position].
  rewrite Hnew. unfold save.
  replace (schema_valid (stored Number_of_string env f)) with false;
    [reflexivity|].
  symmetry. unfold schema_valid.
  cbn [stored anonymousId name email phone position experience education].
  destruct Hblank as [-> | [-> | ->]]; cbn [Js.falsy_string negb];
    now rewrite ?andb_false_r.
Qed.

Lemma blank_field_answered_500_witness :
  submit Sample.Number_of_string Sample.env0 [] Sample.blank_name
  = (Failure 500 "Internal server error", []).
Proof.
  apply (@blank_field_answered_500 Sample.Number_of_string Sample.env0 []
           Sample.blank_name
           (mkFields "   " "jane@x.com" "+12025550123" "Engineer" (Num 3)
              (OneString "Go,SQL") "BSc")); try reflexivity.
  now left.
Defined.

(** X11.  An experience sent as a string that [Number] reads as NaN is
    not caught by the range check, since both comparisons with NaN are
    false; the record is refused when it is saved and the answer is 500
    "Internal server error", not 400. *)
Theorem non_numeric_experience_answered_500
        (Number_of_string : string -> JsNum)
        (env : Env) (st : Store) (b : Body.t) (f : Fields) (s : string)
        (Hfields : all_fields b = Some f)
        (Hemail : validateEmail (f_email f) = true)
        (Hphone : validatePhone (f_phone f) = true)
        (Hexperience : f_experience f = Str s)
        (Hnan : Number_of_string s = NaN)
        (Hnew : findOne_by_email_position
                  (Js.toLowerCase (Js.trim (f_email f)))
                  (Js.trim (f_position f)) st = None) :
  validation_error Number_of_string f = None
  /\ submit Number_of_string env st b
     = (Failure 500 "Internal server error", st).
Proof.
  assert (Hv : validation_error Number_of_string f = None).
  { unfold validation_error. rewrite Hemail, Hphone, Hexperience.
    cbn [negb ToNumber]. now rewrite Hnan. }
  split; [exact Hv|].
  unfold submit. rewrite Hfields, Hv. cbv zeta.
  rewrite new_Applicant_stored.
  cbn [applicantData ApplicantData.email ApplicantData.position].
  rewrite Hnew. unfold save.
  replace (schema_valid (stored Number_of_string env f)) with false;
    [reflexivity|].
  symmetry. unfold schema_valid.
  cbn [stored anonymousId name email phone position experience education].
  rewrite Hexperience. cbn [ToNumber]. rewrite Hnan. cbn [is_NaN negb].
  now rewrite ?andb_false_r.
Qed.

Lemma non_numeric_experience_answered_500_witness :
  submit Sample.Number_of_string Sample.env0 [] Sample.experience_in_words
  = (Failure 500 "Internal server error", []).
Proof.
  apply (@non_numeric_experience_answered_500 Sample.Number_of_string
           Sample.env0 [] Sample.experience_in_words
           (mkFields "Jane Doe" "jane@x.com" "+12025550123" "Engineer"
              (Str "three") (OneString "Go,SQL") "BSc") "three");
    reflexivity.
Defined.

(** ** The existence check *)

(** X12.  A submission that passes validation is answered 409 exactly
    when some stored record holds its email, trimmed and in lower case,
    and its position, trimmed: the email is compared without regard to
    case, the position with regard to it. *)
Theorem duplicate_exactly_when_pair_stored
        (Number_of_string : string -> JsNum)
        (env : Env) (st : Store) (b : Body.t) (f : Fields)
        (Hfields : all_fields b = Some f)
        (Hvalid : validation_error Number_of_string f = None) :
  status_code (fst (submit Number_of_string env st b)) = 409
  <-> exists a,
      In a st
      /\ email a = Js.toLowerCase (Js.trim (f_email f))
      /\ position a = Js.trim (f_position f).
Proof.
  unfold submit. rewrite Hfields, Hvalid. cbv zeta.
  cbn [applicantData ApplicantData.email ApplicantData.position].
  destruct (findOne_by_email_position _ _ st) as [x|] eqn:E.
  - split; [intros _ | reflexivity].
    apply find_some in E. destruct E as [Hin Hx].
    apply andb_true_iff in Hx. destruct Hx as [He Hp].
    apply String.eqb_eq in He, Hp. eauto.
  - split.
    + intros H. exfalso.
      destruct (save st _) as [e | st'].
      * cbn [fst] in H. rewrite submit_catch_500 in H. discriminate.
      * discriminate.
    + intros (a & Hin & He & Hp). exfalso.
      apply (proj1 (StoreFacts.find_none _ _) E) in Hin.
      rewrite He, Hp, !String.eqb_refl in Hin. discriminate.
Qed.

Lemma duplicate_exactly_when_pair_stored_witness :
  status_code
    (fst (submit Sample.Number_of_string Sample.env1 [Sample.jane_record]
            Sample.jane_in_capitals)) = 409.
Proof.
  apply (@duplicate_exactly_when_pair_stored Sample.Number_of_string
           Sample.env1 [Sample.jane_record] Sample.jane_in_capitals
           (mkFields "Jane D." "JANE@X.COM" "+12025550123" " Engineer "
              (Num 4) (Array ["Go"]) "BSc")); try reflexivity.
  exists Sample.jane_record. repeat split. now left.
Defined.

(** ** Skills *)

Module SkillsFacts.
Import Js.





End SkillsFacts.


(** X14.  The client form posts the skills as an array, the pieces of
    the text between commas, trimmed but with the empty ones kept; the
    server takes an array as it is, so an accepted form submission
    stores those pieces, empty ones included, where the same text posted
    as a string stores them without the empty ones. *)
Theorem form_submission_keeps_empty_skills
        (Number_of_string : string -> JsNum)
        (env : Env) (st st' : Store) (data : FormData.t) (id msg : string)
        (Hsubmit : submit Number_of_string env st (payload data)
                   = (Created id msg, st')) :
  exists a,
    st' = (st ++ [a])%list
    /\ skills a = map Js.trim (Js.split_on "," (FormData.skills data))
    /\ skills_list (OneString (FormData.skills data))
       = filter (fun skill => negb (Nat.eqb (String.length skill) 0)) (skills a)
    /\ experience a = Fin (FormData.experience data).
Proof.
  destruct (submit_created _ _ _ _ Hsubmit)
    as (f & Hf & _ & _ & _ & _ & _ & ->).
  exists (stored Number_of_string env f). split; [reflexivity|].
  apply all_fields_some in Hf.
  destruct Hf as (_ & _ & _ & _ & Hx & Hs & _).
  cbn [payload Body.skills Body.experience] in Hx, Hs.
  injection Hx as Hx. injection Hs as Hs.
  cbn [stored skills experience]. rewrite <- Hx, <- Hs.
  cbn [skills_list ToNumber]. rewrite map_map.
  assert (E : map (fun x => Js.trim (Js.trim x))
                (Js.split_on "," (FormData.skills data))
              = map Js.trim (Js.split_on "," (FormData.skills data))).
  { apply map_ext. intros x. apply JsFacts.trim_idem. }
  rewrite E. repeat split.
Qed.

Lemma form_submission_keeps_empty_skills_witness :
  exists a,
    skills a = ["Go"; ""; "SQL"]
    /\ skills_list (OneString "Go,, SQL") = ["Go"; "SQL"]
    /\ submit Sample.Number_of_string Sample.env0 [] (payload form_jane)
       = (Created "APPM2R1BZ7K4FZYO" "Application submitted successfully", [a]).
Proof.
  destruct (@form_submission_keeps_empty_skills Sample.Number_of_string
              Sample.env0 []
              (snd (submit Sample.Number_of_string Sample.env0 []
                      (payload form_jane)))
              form_jane
              "APPM2R1BZ7K4FZYO" "Application submitted successfully")
    as (a & Hst & Hsk & _); [reflexivity|].
  exists a. split; [exact Hsk|]. split; [reflexivity|].
  cbn [app] in Hst. rewrite <- Hst. reflexivity.
Defined.

(** ** Listing: order, size and coverage of the pages *)

Module ListFacts.




Lemma sorted_firstn {A : Type} (R : A -> A -> Prop) (n : nat) (l : list A) :
  StronglySorted R l -> StronglySorted R (firstn n l).
Proof.
  revert l. induction n as [|n IH]; intros l S; [constructor|].
  destruct l as [|a r]; [constructor|].
  inversion S as [|? ? Sr Fa]; subst. cbn. constructor; [now apply IH|].
  apply Forall_forall. intros y Hy. rewrite Forall_forall in Fa.
  apply Fa. revert Hy. clear. revert r. induction n as [|n IH]; intros r H.
  - destruct H.
  - destruct r as [|b r]; [destruct H|]. destruct H as [<- | H];
      [now left | right; now apply IH].
Qed.



Lemma firstn_plus {A : Type} (n m : nat) (l : list A) :
  firstn (n + m) l = (firstn n l ++ firstn m (skipn n l))%list.
Proof.
  revert l. induction n as [|n IH]; intros l; [reflexivity|].
  destruct l as [|a r]; cbn.
  - now rewrite firstn_nil.
  - now rewrite IH.
Qed.

(** Consecutive windows of the same width, put end to end. *)
Lemma windows_concat {A : Type} (n m : nat) (l : list A) :
  List.concat (map (fun k => firstn n (skipn (k * n) l)) (seq 0 m))
  = firstn (m * n) l.
Proof.
  induction m as [|m IH]; [reflexivity|].
  rewrite seq_S, map_app, concat_app, IH. cbn [map List.concat Nat.add].
  rewrite app_nil_r.
  replace (S m * n)%nat with (m * n + n)%nat by lia.
  now rewrite firstn_plus.
Qed.


End ListFacts.

Section ListingFacts.

Variable Number_of_string : string -> JsNum.
Variable RegExp_i : string -> option (string -> bool).
Variable nan_window : list Applicant -> Exn + list Applicant.


Lemma limitNum_bounds (q : Query.t) (L : Z) : limitNum q = Int L -> 1 <= L <= 50.
Proof.
  unfold limitNum.
  destruct (int_param (Query.limit q) 10) as [|z|[|]]; cbn;
    try discriminate; intros [= <-]; lia.
Qed.

(** The answer to a listing whose page and limit are numbers. *)
Lemma listApplicants_numeric (st : Store) (q : Query.t) (f : Filter) (P L : Z) :
  build_filter Number_of_string RegExp_i q = inr f ->
  cast_fails f = false ->
  pageNum q = Int P ->
  limitNum q = Int L ->
  listApplicants Number_of_string RegExp_i nan_window st q
  = Listing
      (map (project anonymized_fields)
         (firstn (Z.to_nat L)
            (skipn (Z.to_nat ((P - 1) * L))
               (sort_desc (filter (matches f) st)))))
      {| page := Int P; limit := Int L;
         total := Z.of_nat (List.length (filter (matches f) st));
         totalPages :=
           Int (ceil_div (Z.of_nat (List.length (filter (matches f) st))) L);
         hasNext :=
           P <? ceil_div (Z.of_nat (List.length (filter (matches f) st))) L;
         hasPrev := 1 <? P |}.
Proof.
  intros Hf Hc Hp Hl.
  unfold listApplicants, find_window, countDocuments, skip.
  now rewrite Hf, Hc, Hp, Hl.
Qed.

Lemma build_filter_with_page (s : option string) (q : Query.t) :
  build_filter Number_of_string RegExp_i (with_page s q)
  = build_filter Number_of_string RegExp_i q.
Proof. reflexivity. Qed.

End ListingFacts.






(** X17.  Walking the pages from the first to the last, with the same
    filter and limit, gives every matching record once, newest first:
    the items of the pages 1 to totalPages, put end to end, are the
    anonymised views of all the matching records in date order. *)
Theorem pages_cover_the_matches
        (Number_of_string : string -> JsNum)
        (RegExp_i : string -> option (string -> bool))
        (nan_window : list Applicant -> Exn + list Applicant)
        (st : Store) (q : Query.t) (f : Filter) (L : Z)
        (text : nat -> string)
        (Hfilter : build_filter Number_of_string RegExp_i q = inr f)
        (Hcast : cast_fails f = false)
        (Hlimit : limitNum q = Int L)
        (Htext : forall k,
            (1 <= k)%nat ->
            Z.of_nat k
            <= ceil_div (Z.of_nat (List.length (filter (matches f) st))) L ->
            ParseInt.parseInt (text k) = Int (Z.of_nat k)) :
  List.concat
    (map (fun k =>
            response_items
              (listApplicants Number_of_string RegExp_i nan_window st
                 (with_page (Some (text k)) q)))
       (seq 1 (Z.to_nat
                 (ceil_div (Z.of_nat (List.length (filter (matches f) st))) L))))
  = map (project anonymized_fields) (sort_desc (filter (matches f) st)).
Proof.
  pose proof (limitNum_bounds _ Hlimit) as HL.
  set (sorted := sort_desc (filter (matches f) st)).
  set (T := ceil_div (Z.of_nat (List.length (filter (matches f) st))) L) in *.
  assert (Hpages :
            map (fun k =>
                   response_items
                     (listApplicants Number_of_string RegExp_i nan_window st
                        (with_page (Some (text k)) q)))
              (seq 1 (Z.to_nat T))
            = map (fun k =>
                     map (project anonymized_fields)
                       (firstn (Z.to_nat L)
                          (skipn (k * Z.to_nat L) sorted)))
                (seq 0 (Z.to_nat T))).
  { rewrite <- seq_shift, map_map. apply map_ext_in. intros k Hk.
    apply in_seq in Hk.
    assert (Hp : pageNum (with_page (Some (text (S k))) q)
                 = Int (Z.of_nat (S k))).
    { unfold pageNum. cbn [with_page Query.page int_param].
      rewrite Htext by lia. cbn [Math_max]. f_equal. lia. }
    erewrite listApplicants_numeric;
      [ | rewrite build_filter_with_page; exact Hfilter | exact Hcast
        | exact Hp | exact Hlimit ].
    cbn [response_items]. subst sorted.
    replace (Z.to_nat ((Z.of_nat (S k) - 1) * L)) with (k * Z.to_nat L)%nat
      by nia.
    reflexivity. }
  rewrite Hpages, <- map_map, <- concat_map, ListFacts.windows_concat.
  rewrite firstn_all2; [reflexivity|].
  subst sorted. rewrite StoreFacts.sort_desc_length.
  pose proof (@ceil_div_covers
                (Z.of_nat (List.length (filter (matches f) st))) L ltac:(lia)).
  fold T in H. nia.
Qed.

Lemma pages_cover_the_matches_witness :
  List.concat
    (map (fun k =>
            response_items
              (listApplicants Sample.Number_of_string Sample.RegExp_i
                 Sample.nan_window Sample.three_records
                 (with_page (Some (Sample.page_text k)) (Sample.page_of "1" "2"))))
       [1%nat; 2%nat])
  = map (project anonymized_fields)
      [Sample.ann_record; Sample.bob_record; Sample.jane_record].
Proof.
  apply (@pages_cover_the_matches
           Sample.Number_of_string Sample.RegExp_i Sample.nan_window
           Sample.three_records (Sample.page_of "1" "2")
           (mkFilter None None None None) 2 Sample.page_text);
    try reflexivity.
  intros k H1 H2. change (Z.of_nat k <= 2) in H2.
  assert (k = 1%nat \/ k = 2%nat) as [-> | ->] by lia; reflexivity.
Defined.



(** ** Status update and reveal together *)

Lemma findOneAndUpdate_twice (id : string) (v1 v2 : Status) (st : Store) :
  findOneAndUpdate id v2 (snd (findOneAndUpdate id v1 st))
  = findOneAndUpdate id v2 st.
Proof.
  induction st as [|a r IH]; [reflexivity|].
  cbn [findOneAndUpdate]. destruct (has_id id a) eqn:E.
  - cbn [snd findOneAndUpdate].
    replace (has_id id (set_status v1 a)) with true by (now rewrite <- E).
    reflexivity.
  - destruct (findOneAndUpdate id v1 r) as [found r'] eqn:E1.
    cbn [snd] in *. cbn [findOneAndUpdate]. rewrite E, IH.
    reflexivity.
Qed.

Lemma findOneAndUpdate_found (id : string) (v : Status) (st : Store) :
  fst (findOneAndUpdate id v st)
  = option_map (set_status v) (find (has_id id) st).
Proof.
  induction st as [|a r IH]; [reflexivity|].
  cbn [findOneAndUpdate find]. destruct (has_id id a); [reflexivity|].
  destruct (findOneAndUpdate id v r) as [found r']. exact IH.
Qed.

Lemma find_after_update (id id' : string) (v : Status) (st : Store) :
  option_map (project contact_fields)
    (find (has_id id) (snd (findOneAndUpdate id' v st)))
  = option_map (project contact_fields) (find (has_id id) st).
Proof.
  induction st as [|a r IH]; [reflexivity|].
  cbn [findOneAndUpdate]. destruct (has_id id' a).
  - cbn [snd find].
    change (has_id id (set_status v a)) with (has_id id a).
    destruct (has_id id a); reflexivity.
  - destruct (findOneAndUpdate id' v r) as [found r'].
    cbn [snd find] in *. destruct (has_id id a); [reflexivity | exact IH].
Qed.

Lemma getContact_after_update (st : Store) (id id' : string) (s : option string) :
  getContact (snd (updateStatus st id' s)) id = getContact st id.
Proof.
  assert (G : forall st1 st2,
             option_map (project contact_fields) (find (has_id id) st1)
             = option_map (project contact_fields) (find (has_id id) st2) ->
             getContact st1 id = getContact st2 id).
  { intros st1 st2 H. unfold getContact, findOne_by_id.
    destruct (find (has_id id) st1), (find (has_id id) st2);
      cbn [option_map] in H; congruence. }
  unfold updateStatus.
  destruct (if Js.falsy s then None else _) as [v|]; [|reflexivity].
  pose proof (find_after_update id id' v st) as H.
  destruct (findOneAndUpdate id' v st) as [[a|] st']; cbn [snd] in *;
    [now apply G | reflexivity].
Qed.

(** X19.  A status update with a valid status for an identifier that no
    record has is answered 404 "Applicant not found" and changes
    nothing. *)
Theorem updateStatus_unknown_identifier
        (st : Store) (id : string) (v : Status)
        (Hunknown : forall a, In a st -> anonymousId a <> id) :
  updateStatus st id (Some (status_name v))
  = (Failure 404 "Applicant not found", st).
Proof.
  unfold updateStatus.
  replace (Js.falsy (Some (status_name v))) with false by (now destruct v).
  rewrite StoreFacts.includes_status_name.
  rewrite StoreFacts.findOneAndUpdate_miss; [reflexivity|].
  intros y Hy. now apply StoreFacts.has_id_false, Hunknown.
Qed.

Lemma updateStatus_unknown_identifier_witness :
  updateStatus [Sample.jane_record] "APPZZZ" (Some "reviewed")
  = (Failure 404 "Applicant not found", [Sample.jane_record]).
Proof.
  apply (@updateStatus_unknown_identifier [Sample.jane_record] "APPZZZ" reviewed).
  intros a [<- | []]. discriminate.
Defined.

(** X20.  Any status can follow any status, and the last update wins: a
    status update after another for the same identifier gives the store
    and the answer it would give alone; in particular the same update
    twice is the update once. *)
Theorem updateStatus_last_write_wins
        (st : Store) (id : string) (v1 v2 : Status) :
  updateStatus (snd (updateStatus st id (Some (status_name v1)))) id
    (Some (status_name v2))
  = updateStatus st id (Some (status_name v2)).
Proof.
  unfold updateStatus.
  replace (Js.falsy (Some (status_name v1))) with false by (now destruct v1).
  replace (Js.falsy (Some (status_name v2))) with false by (now destruct v2).
  rewrite !StoreFacts.includes_status_name.
  pose proof (findOneAndUpdate_twice id v1 v2 st) as T.
  pose proof (findOneAndUpdate_found id v1 st) as F1.
  pose proof (findOneAndUpdate_found id v2 st) as F2.
  destruct (findOneAndUpdate id v1 st) as [found1 st1] eqn:E1.
  destruct (findOneAndUpdate id v2 st) as [found2 st2] eqn:E2.
  cbn [snd fst] in *.
  destruct found1 as [a1|]; cbn [snd].
  - rewrite T.
    destruct (find (has_id id) st) as [x|]; cbn [option_map] in F1, F2;
      [subst found2; reflexivity | discriminate].
  - rewrite E2. reflexivity.
Qed.

Lemma find_app_found {A : Type} (p : A -> bool) (l1 l2 : list A) (x : A) :
  find p l1 = Some x -> find p (l1 ++ l2)%list = Some x.
Proof.
  induction l1 as [|a r IH]; cbn; [discriminate|].
  destruct (p a); [auto | exact IH].
Qed.

(** X21.  What a reveal shows for an identifier that a record has is
    not changed by any request: not by a submission, which only appends,
    nor by a status update, which rewrites the status only. *)
Theorem contact_is_stable
        (Number_of_string : string -> JsNum)
        (RegExp_i : string -> option (string -> bool))
        (nan_window : list Applicant -> Exn + list Applicant)
        (st : Store) (r : Request) (id : string)
        (Hknown : exists a, In a st /\ anonymousId a = id) :
  status_code (getContact st id) = 200
  /\ getContact (snd (handle Number_of_string RegExp_i nan_window st r)) id
     = getContact st id.
Proof.
  assert (Hfound : exists x, find (has_id id) st = Some x).
  { destruct (find (has_id id) st) as [x|] eqn:E; [eauto|].
    destruct Hknown as (a & Hin & Hid).
    apply (proj1 (StoreFacts.find_none _ _) E) in Hin.
    apply StoreFacts.has_id_false in Hin. contradiction. }
  destruct Hfound as (x & Hx).
  split; [unfold getContact, findOne_by_id; now rewrite Hx|].
  destruct r as [env b | q | id' | id' s]; cbn [handle snd]; try reflexivity.
  - destruct (submit_appends Number_of_string env st b)
      as [-> | (f & _ & _ & _ & _ & ->)]; [reflexivity|].
    unfold getContact, findOne_by_id.
    now rewrite (find_app_found _ _ _ Hx), Hx.
  - apply getContact_after_update.
Qed.

Lemma contact_is_stable_witness :
  getContact
    (snd (handle Sample.Number_of_string Sample.RegExp_i Sample.nan_window
            [Sample.jane_record]
            (PatchStatus "APPM2R1BZ7K4FZYO" (Some "rejected"))))
    "APPM2R1BZ7K4FZYO"
  = Contact [ ("name", VString "Jane Doe"); ("email", VString "jane@x.com");
              ("phone", VString "+12025550123") ].
Proof.
  destruct (@contact_is_stable Sample.Number_of_string Sample.RegExp_i
              Sample.nan_window [Sample.jane_record]
              (PatchStatus "APPM2R1BZ7K4FZYO" (Some "rejected"))
              "APPM2R1BZ7K4FZYO") as [_ H].
  - exists Sample.jane_record. split; [now left | reflexivity].
  - rewrite H. reflexivity.
Defined.

(** X22.  Reveal and status update agree on which identifiers exist:
    for a valid status, the update is answered 404 exactly when the
    reveal is, and 200 exactly when the reveal is; the answer of a
    successful update is one object, which holds the identifier asked
    for and the status just written, and no name, e-mail address or
    phone number. *)
Theorem reveal_and_update_agree (st : Store) (id : string) (v : Status) :
  (status_code (fst (updateStatus st id (Some (status_name v)))) = 404
   <-> status_code (getContact st id) = 404)
  /\ (status_code (fst (updateStatus st id (Some (status_name v)))) = 200
      <-> status_code (getContact st id) = 200)
  /\ (status_code (fst (updateStatus st id (Some (status_name v)))) = 200 ->
      exists o,
        response_items (fst (updateStatus st id (Some (status_name v)))) = [o]
        /\ In ("anonymousId", VString id) o
        /\ In ("status", VString (status_name v)) o
        /\ Forall (fun k => ~ In k (keys o)) ["name"; "email"; "phone"]).
Proof.
  unfold updateStatus, getContact, findOne_by_id.
  replace (Js.falsy (Some (status_name v))) with false by (now destruct v).
  rewrite StoreFacts.includes_status_name.
  pose proof (findOneAndUpdate_found id v st) as F.
  destruct (find (has_id id) st) as [x|] eqn:E.
  - destruct (findOneAndUpdate id v st) as [[a|] st'] eqn:E1; cbn [fst] in F;
      [|discriminate].
    cbn in F. injection F as ->.
    cbn [fst status_code response_items].
    split; [split; discriminate|]. split; [split; reflexivity|].
    intros _. rewrite project_status. cbn [set_status anonymousId status].
    apply find_some in E. destruct E as [_ E].
    apply StoreFacts.has_id_true in E. rewrite E.
    eexists. split; [reflexivity|].
    split; [right; now left|]. split; [right; right; now left|].
    repeat constructor; cbn [keys map fst In]; intros H;
      repeat (destruct H as [H | H]; [discriminate H|]); exact H.
  - destruct (findOneAndUpdate id v st) as [[a|] st'] eqn:E1; cbn [fst] in F;
      [discriminate|].
    cbn [fst status_code].
    split; [split; reflexivity|]. split; [split; discriminate|]. discriminate.
Qed.

(** ** Statistics *)

Section GroupFacts.

Variable K : Type.
Variable eqb : K -> K -> bool.
Hypothesis eqb_eq : forall x y, eqb x y = true <-> x = y.
Variable key : Applicant -> K.

Lemma eqb_same (x : K) : eqb x x = true.
Proof. now apply eqb_eq. Qed.

Lemma eqb_sym (x y : K) : eqb x y = eqb y x.
Proof.
  destruct (eqb x y) eqn:E1, (eqb y x) eqn:E2; try reflexivity.
  - apply eqb_eq in E1. subst. rewrite eqb_same in E2. discriminate.
  - apply eqb_eq in E2. subst. rewrite eqb_same in E1. discriminate.
Qed.

Lemma listed_count_bump (k k' : K) (acc : list (K * Z)) :
  listed_count eqb k' (bump eqb k acc)
  = listed_count eqb k' acc + (if eqb k k' then 1 else 0).
Proof.
  induction acc as [|[k0 n] r IH]; cbn [bump listed_count].
  - destruct (eqb k k'); lia.
  - destruct (eqb k0 k) eqn:E; cbn [listed_count].
    + apply eqb_eq in E. subst k0. destruct (eqb k k'); lia.
    + destruct (eqb k0 k') eqn:E'; [|exact IH].
      apply eqb_eq in E'. subst k0. rewrite eqb_sym, E. lia.
Qed.

Lemma keys_bump (k : K) (acc : list (K * Z)) :
  (In k (map fst acc) /\ map fst (bump eqb k acc) = map fst acc)
  \/ (~ In k (map fst acc)
      /\ map fst (bump eqb k acc) = (map fst acc ++ [k])%list).
Proof.
  induction acc as [|[k0 n] r IH]; cbn [bump map fst].
  - right. split; [intros [] | reflexivity].
  - destruct (eqb k0 k) eqn:E.
    + left. apply eqb_eq in E. subst. split; [now left | reflexivity].
    + assert (N : k0 <> k).
      { intros ->. rewrite eqb_same in E. discriminate. }
      destruct IH as [[Hin Hk] | [Hin Hk]].
      * left. split; [now right|]. cbn [map fst]. now rewrite Hk.
      * right. split.
        -- intros [H | H]; [now apply N | now apply Hin].
        -- cbn [map fst app]. now rewrite Hk.
Qed.

Lemma NoDup_keys_bump (k : K) (acc : list (K * Z)) :
  NoDup (map fst acc) -> NoDup (map fst (bump eqb k acc)).
Proof.
  intros N. destruct (keys_bump k acc) as [[_ ->] | [Hin ->]]; [exact N|].
  apply Permutation_NoDup with (l := k :: map fst acc).
  - apply Permutation_cons_append.
  - now constructor.
Qed.

Lemma positive_bump (k : K) (acc : list (K * Z)) :
  Forall (fun x => 0 < snd x) acc ->
  Forall (fun x => 0 < snd x) (bump eqb k acc).
Proof.
  induction acc as [|[k0 n] r IH]; intros F; cbn [bump].
  - repeat constructor.
  - inversion F as [|? ? Hn Hr]; subst. cbn in Hn.
    destruct (eqb k0 k); constructor; cbn; auto; lia.
Qed.

Lemma sum_counts_bump (k : K) (acc : list (K * Z)) :
  sum_counts (bump eqb k acc) = sum_counts acc + 1.
Proof.
  unfold sum_counts.
  induction acc as [|[k0 n] r IH]; cbn [bump fold_right snd]; [lia|].
  destruct (eqb k0 k); cbn [fold_right snd]; lia.
Qed.

Lemma count_of_cons (k : K) (a : Applicant) (st : Store) :
  count_of eqb key k (a :: st)
  = (if eqb (key a) k then 1 else 0) + count_of eqb key k st.
Proof.
  unfold count_of. cbn [filter]. destruct (eqb (key a) k); cbn [List.length]; lia.
Qed.

Lemma fold_bump (st : Store) (acc : list (K * Z)) :
  NoDup (map fst acc) ->
  Forall (fun x => 0 < snd x) acc ->
  let out := fold_left (fun acc a => bump eqb (key a) acc) st acc in
  NoDup (map fst out)
  /\ Forall (fun x => 0 < snd x) out
  /\ sum_counts out = sum_counts acc + Z.of_nat (List.length st)
  /\ forall k, listed_count eqb k out
               = listed_count eqb k acc + count_of eqb key k st.
Proof.
  revert acc. induction st as [|a r IH]; intros acc N P; cbn [fold_left].
  - repeat split; auto; [cbn; lia|]. intros k. unfold count_of. cbn. lia.
  - destruct (IH (bump eqb (key a) acc)
                ltac:(now apply NoDup_keys_bump)
                ltac:(now apply positive_bump)) as (N' & P' & S' & G').
    repeat split; auto.
    + rewrite S', sum_counts_bump. cbn [List.length]. lia.
    + intros k. rewrite G', listed_count_bump, count_of_cons. lia.
Qed.

Lemma listed_count_In (acc : list (K * Z)) (k : K) (n : Z) :
  NoDup (map fst acc) ->
  Forall (fun x => 0 < snd x) acc ->
  (In (k, n) acc <-> n = listed_count eqb k acc /\ 0 < n).
Proof.
  induction acc as [|[k0 m] r IH]; intros N P; cbn [listed_count].
  - split; [intros [] | lia].
  - cbn [map fst] in N. inversion N as [|? ? Hk Hr]; subst.
    inversion P as [|? ? Hm Hp]; subst. cbn in Hm.
    specialize (IH Hr Hp).
    destruct (eqb k0 k) eqn:E.
    + apply eqb_eq in E. subst k0. split.
      * intros [H | H]; [injection H as <-; lia|].
        exfalso. apply Hk. change k with (fst (k, n)). now apply in_map.
      * intros [-> _]. now left.
    + split.
      * intros [H | H]; [|now apply IH].
        injection H as -> _. rewrite eqb_same in E. discriminate.
      * intros H. right. now apply IH.
Qed.

(** What a [$group] stage with [{ $sum: 1 }] lists. *)
Lemma group_count_spec (st : Store) :
  NoDup (map fst (group_count eqb key st))
  /\ sum_counts (group_count eqb key st) = Z.of_nat (List.length st)
  /\ forall k n,
      In (k, n) (group_count eqb key st)
      <-> n = count_of eqb key k st /\ 0 < n.
Proof.
  unfold group_count.
  destruct (@fold_bump st [] ltac:(constructor) ltac:(constructor))
    as (N & P & S & G).
  split; [exact N|]. split; [exact S|].
  intros k n. rewrite (listed_count_In _ _ N P), G. cbn [listed_count].
  reflexivity.
Qed.

Lemma insert_by_count_perm (x : K * Z) (l : list (K * Z)) :
  Permutation (insert_by_count x l) (x :: l).
Proof.
  induction l as [|y r IH]; cbn [insert_by_count]; [reflexivity|].
  destruct (snd x <=? snd y); [|reflexivity].
  rewrite IH. apply perm_swap.
Qed.

Lemma sort_by_count_perm (l : list (K * Z)) : Permutation (sort_by_count l) l.
Proof.
  induction l as [|x r IH]; cbn; [reflexivity|].
  rewrite insert_by_count_perm. now constructor.
Qed.

Lemma insert_by_count_sorted (x : K * Z) (l : list (K * Z)) :
  largest_first l -> largest_first (insert_by_count x l).
Proof.
  unfold largest_first. induction l as [|y r IH]; intros S;
    cbn [insert_by_count].
  - repeat constructor.
  - inversion S as [|? ? Sr Fy]; subst.
    destruct (snd x <=? snd y) eqn:E.
    + apply Z.leb_le in E. constructor; [now apply IH|].
      apply (Permutation_Forall (x := x :: r)).
      * symmetry. apply insert_by_count_perm.
      * now constructor.
    + apply Z.leb_gt in E. constructor; [exact S|].
      constructor; [lia|].
      eapply Forall_impl; [|exact Fy]. cbn. intros z Hz. lia.
Qed.

Lemma sort_by_count_sorted (l : list (K * Z)) : largest_first (sort_by_count l).
Proof.
  induction l as [|x r IH]; cbn; [constructor | now apply insert_by_count_sorted].
Qed.

End GroupFacts.

Lemma Status_eqb_eq (x y : Status) : Status_eqb x y = true <-> x = y.
Proof. destruct x, y; cbn; split; congruence. Qed.

Lemma sorted_split {A : Type} (R : A -> A -> Prop) (n : nat) (l : list A) :
  StronglySorted R l ->
  forall x y, In x (firstn n l) -> In y (skipn n l) -> R x y.
Proof.
  revert l. induction n as [|n IH]; intros l S x y Hx Hy; [destruct Hx|].
  destruct l as [|a r]; [destruct Hx|].
  inversion S as [|? ? Sr Fa]; subst. cbn in Hx, Hy.
  destruct Hx as [<- | Hx].
  - rewrite Forall_forall in Fa. apply Fa.
    rewrite <- (firstn_skipn n r). apply in_or_app. now right.
  - now apply (IH r).
Qed.

(** X23.  The statistics count every record once by status: the counts
    listed by status add up to totalApplications, which is the size of
    the store; no status is listed twice, so at most four are; and a
    status is listed, with the number of records that have it, exactly
    when at least one record has it. *)
Theorem stats_by_status (st : Store) :
  totalApplications (getStats st) = Z.of_nat (List.length st)
  /\ sum_counts (applicationsByStatus (getStats st))
     = totalApplications (getStats st)
  /\ NoDup (map fst (applicationsByStatus (getStats st)))
  /\ (List.length (applicationsByStatus (getStats st)) <= 4)%nat
  /\ forall v n,
      In (v, n) (applicationsByStatus (getStats st))
      <-> n = count_of Status_eqb status v st /\ 0 < n.
Proof.
  cbn [getStats totalApplications applicationsByStatus].
  destruct (@group_count_spec Status Status_eqb Status_eqb_eq status st)
    as (N & S & G).
  split; [reflexivity|]. split; [exact S|]. split; [exact N|].
  split; [|exact G].
  rewrite <- (length_map fst).
  change 4%nat with (List.length validStatuses).
  apply NoDup_incl_length; [exact N|].
  intros v _. destruct v; cbn; auto.
Qed.

(** X24.  The statistics list at most ten positions, none twice,
    largest count first, each with the number of records that have it;
    and a position that records have is either listed or has no more
    records than any position listed. *)
Theorem stats_by_position (st : Store) :
  (List.length (applicationsByPosition (getStats st)) <= 10)%nat
  /\ NoDup (map fst (applicationsByPosition (getStats st)))
  /\ largest_first (applicationsByPosition (getStats st))
  /\ (forall p n,
         In (p, n) (applicationsByPosition (getStats st)) ->
         n = count_of String.eqb position p st /\ 0 < n)
  /\ forall a p n,
      In a st ->
      In (p, n) (applicationsByPosition (getStats st)) ->
      In (position a) (map fst (applicationsByPosition (getStats st)))
      \/ count_of String.eqb position (position a) st <= n.
Proof.
  cbn [getStats applicationsByPosition].
  destruct (@group_count_spec string String.eqb String.eqb_eq position st)
    as (N & S & G).
  set (groups := group_count String.eqb position st) in *.
  set (sorted := sort_by_count groups).
  assert (Pm : Permutation sorted groups) by apply sort_by_count_perm.
  assert (Ns : NoDup (map fst sorted)).
  { apply Permutation_NoDup with (l := map fst groups); [|exact N].
    apply Permutation_map. now symmetry. }
  assert (Ss : largest_first sorted) by apply sort_by_count_sorted.
  split; [rewrite length_firstn; lia|]. split.
  { rewrite <- (firstn_skipn 10 sorted), map_app in Ns.
    now apply NoDup_app_remove_r in Ns. }
  split; [now apply ListFacts.sorted_firstn|]. split.
  - intros p n H. apply G. eapply Permutation_in; [exact Pm|].
    rewrite <- (firstn_skipn 10 sorted). apply in_or_app. now left.
  - intros a p n Ha Hp.
    set (c := count_of String.eqb position (position a) st).
    assert (Hc : 0 < c).
    { subst c. unfold count_of.
      assert (In a (filter (fun x => String.eqb (position x) (position a)) st)).
      { apply filter_In. split; [exact Ha | apply String.eqb_refl]. }
      destruct (filter _ st); [contradiction | cbn [List.length]; lia]. }
    assert (Hg : In (position a, c) sorted).
    { eapply Permutation_in; [symmetry; exact Pm|]. apply G. auto. }
    rewrite <- (firstn_skipn 10 sorted) in Hg. apply in_app_or in Hg.
    destruct Hg as [Hg | Hg].
    + left. change (position a) with (fst (position a, c)). now apply in_map.
    + right. exact (@sorted_split _ _ 10 sorted Ss _ _ Hp Hg).
Qed.

Example stats_of_three_records :
  getStats Sample.three_records
  = {| totalApplications := 3;
       applicationsByStatus := [(pending, 2); (reviewed, 1)];
       applicationsByPosition :=
         [("Senior Engineer", 1); ("Analyst", 1); ("Engineer", 1)] |}.
Proof. reflexivity. Qed.

(** ** A status update seen through the listing *)



